(** * EnglishToHebrew: page sequencing, response validation, document
      assembly and chunking

    A shallow embedding of the translation pipeline of
    [src/utils/openaiProcessor.ts] ([isValidTranslation], [processPage],
    [delay]) and of the simple translator script ([createChunks],
    [summarizeChunk] and the loops of [main]).

    JavaScript strings are sequences of UTF-16 code units, numbers that
    count things are [nat], the size threshold is a [Z].  The model
    provider, the file system and the two string built-ins that the
    repository does not define ([String.prototype.toLowerCase] and the
    JSON extraction) are parameters of the development. *)

From Stdlib Require Import String Ascii DecimalString.
From Stdlib Require Import NArith ZArith Arith Lia Bool List.
Import ListNotations.

Set Implicit Arguments.

(* ================================================================== *)
(** ** JavaScript strings *)
(* ================================================================== *)

Definition jsstring := list N.

(** Source literals are written as UTF-8 text and decoded to the UTF-16
    code units that the JavaScript engine stores. *)
Fixpoint utf16_of_utf8 (bs : list N) : jsstring :=
  match bs with
  | [] => []
  | b0 :: t0 =>
    if (b0 <? 128)%N then b0 :: utf16_of_utf8 t0
    else match t0 with
    | [] => [65533%N]
    | b1 :: t1 =>
      if (b0 <? 224)%N
      then ((b0 - 192) * 64 + (b1 - 128))%N :: utf16_of_utf8 t1
      else match t1 with
      | [] => [65533%N]
      | b2 :: t2 =>
        if (b0 <? 240)%N
        then ((b0 - 224) * 4096 + (b1 - 128) * 64 + (b2 - 128))%N
               :: utf16_of_utf8 t2
        else match t2 with
        | [] => [65533%N]
        | b3 :: t3 =>
          let cp := ((b0 - 240) * 262144 + (b1 - 128) * 4096
                     + (b2 - 128) * 64 + (b3 - 128))%N in
          (55296 + (cp - 65536) / 1024)%N
            :: (56320 + (cp - 65536) mod 1024)%N :: utf16_of_utf8 t3
        end
      end
    end
  end.

Definition js (s : string) : jsstring :=
  utf16_of_utf8 (map N_of_ascii (list_ascii_of_string s)).

(** ['\n'] *)
Definition nl : jsstring := [10%N].

(** Template interpolation [${n}] of a non-negative integer. *)
Definition decimal (n : nat) : jsstring :=
  js (NilEmpty.string_of_uint (Nat.to_uint n)).

(** A string is truthy when it is not empty. *)
Definition truthy (s : jsstring) : bool :=
  match s with [] => false | _ :: _ => true end.

(** [s || ''] for an optional string field. *)
Definition orEmpty (o : option jsstring) : jsstring :=
  match o with Some s => s | None => [] end.

Fixpoint str_eqb (a b : jsstring) : bool :=
  match a, b with
  | [], [] => true
  | x :: a', y :: b' => (x =? y)%N && str_eqb a' b'
  | _, _ => false
  end.

Fixpoint startsWith (s p : jsstring) : bool :=
  match p, s with
  | [], _ => true
  | _ :: _, [] => false
  | y :: p', x :: s' => (x =? y)%N && startsWith s' p'
  end.

(** [s.includes(sub)] *)
Fixpoint includes (s sub : jsstring) : bool :=
  startsWith s sub ||
  match s with
  | [] => false
  | _ :: s' => includes s' sub
  end.

(** [s.slice(-n)]: the last [n] code units, the whole string when it is
    shorter. *)
Definition sliceLast (n : nat) (s : jsstring) : jsstring :=
  skipn (List.length s - n) s.

(** White space and line terminators removed by [String.prototype.trim]. *)
Definition isWhiteSpace (c : N) : bool :=
  ((9 <=? c) && (c <=? 13) || (c =? 32) || (c =? 160) || (c =? 5760)
   || (8192 <=? c) && (c <=? 8202) || (c =? 8232) || (c =? 8233)
   || (c =? 8239) || (c =? 8287) || (c =? 12288) || (c =? 65279))%N.

Fixpoint trimStart (s : jsstring) : jsstring :=
  match s with
  | [] => []
  | c :: s' => if isWhiteSpace c then trimStart s' else s
  end.

Definition trim (s : jsstring) : jsstring :=
  rev (trimStart (rev (trimStart s))).

(** ['='.repeat(80)] *)
Definition rule80 : jsstring := repeat 61%N 80.

(* ================================================================== *)
(** ** Data model *)
(* ================================================================== *)

Inductive Status := OK | FAILED | RETRY.

Definition isOK (s : Status) : bool :=
  match s with OK => true | _ => false end.

(** [interface TranslationResult]; the fields marked [?] are optional. *)
Record TranslationResult := {
  pageNumber : nat;
  translation : jsstring;
  summary : jsstring;
  articleTitle : jsstring;
  chapterTitle : option jsstring;
  sectionTitle : option jsstring;
  status : Status;
  retryCount : option nat
}.

(** [interface ChunkData] *)
Record ChunkData := {
  title : jsstring;
  text : jsstring;
  pages : list nat
}.

(* ================================================================== *)
(** ** Response validation: [isValidTranslation] *)
(* ================================================================== *)

Section Validation.

(** [String.prototype.toLowerCase] is a built-in of the engine. *)
Variable lower : jsstring -> jsstring.

Definition failureIndicators : list jsstring :=
  [ js "I'm unable to provide";
    js "I cannot provide";
    js "unable to";
    js "לא ניתן לתרגם";
    js "לא ניתן היה";
    js "שגיאה בעיבוד";
    js "error";
    js "failed" ].

(** The [for (const indicator of failureIndicators)] loop: [false] is
    returned at the first indicator found in either field. *)
Fixpoint indicatorLoop (lowerTranslation lowerSummary : jsstring)
         (indicators : list jsstring) : bool :=
  match indicators with
  | [] => true
  | indicator :: rest =>
    if includes lowerTranslation (lower indicator)
       || includes lowerSummary (lower indicator)
    then false
    else indicatorLoop lowerTranslation lowerSummary rest
  end.

Definition isValidTranslation (translation summary : jsstring) : bool :=
  if negb (truthy translation) || (List.length (trim translation) <? 10)
  then false
  else if negb (truthy summary) || (List.length (trim summary) <? 10)
  then false
  else
    let lowerTranslation := lower translation in
    let lowerSummary := lower summary in
    indicatorLoop lowerTranslation lowerSummary failureIndicators.

End Validation.

(** Lower-casing restricted to Basic Latin; it agrees with the built-in
    on every string whose cased letters are all in [A-Z], in particular
    on ASCII and Hebrew text. *)
Definition toLowerCaseAscii (s : jsstring) : jsstring :=
  map (fun c => if ((65 <=? c) && (c <=? 90))%N then (c + 32)%N else c) s.

(* ================================================================== *)
(** ** The chunker: [createChunks] *)
(* ================================================================== *)

Record ChunkerState := {
  chunks : list ChunkData;
  currentChunk : ChunkData;
  currentChapter : jsstring;
  currentSection : jsstring
}.

Definition chunkerInit : ChunkerState :=
  {| chunks := [];
     currentChunk := {| title := []; text := []; pages := [] |};
     currentChapter := [];
     currentSection := [] |}.

(** The label shown for a page: chapter, chapter and section, section
    alone, or the fixed fallback. *)
Definition contentTitleOf (currentChapter currentSection : jsstring)
  : jsstring :=
  if truthy currentChapter
  then (if truthy currentSection
        then currentChapter ++ js " > " ++ currentSection
        else currentChapter)
  else (if truthy currentSection
        then currentSection
        else js "תוכן כללי").

(** One iteration of [for (const result of results)]. *)
Definition chunkStep (maxChars : Z) (st : ChunkerState)
           (result : TranslationResult) : ChunkerState :=
  if negb (isOK (status result)) then st
  else
    let chapter1 :=
      if truthy (orEmpty (chapterTitle result))
      then orEmpty (chapterTitle result) else currentChapter st in
    let section0 :=
      if truthy (orEmpty (chapterTitle result))
      then [] else currentSection st in
    let section1 :=
      if truthy (orEmpty (sectionTitle result))
      then orEmpty (sectionTitle result) else section0 in
    let contentTitle := contentTitleOf chapter1 section1 in
    let cur := currentChunk st in
    let titleChanged :=
      truthy (title cur) && negb (str_eqb (title cur) contentTitle) in
    let wouldExceedLimit :=
      (Z.of_nat (List.length (text cur))
       + Z.of_nat (List.length (translation result)) >? maxChars)%Z in
    let pushed :=
      if (titleChanged || wouldExceedLimit) && truthy (text cur)
      then (chunks st ++ [cur],
            {| title := contentTitle; text := []; pages := [] |})
      else (chunks st, cur) in
    let cur1 := snd pushed in
    let title1 :=
      if negb (truthy (title cur1)) then contentTitle else title cur1 in
    {| chunks := fst pushed;
       currentChunk :=
         {| title := title1;
            text := text cur1 ++ translation result ++ nl ++ nl;
            pages := pages cur1 ++ [pageNumber result] |};
       currentChapter := chapter1;
       currentSection := section1 |}.

Definition chunkerFinish (st : ChunkerState) : list ChunkData :=
  if truthy (text (currentChunk st))
  then chunks st ++ [currentChunk st]
  else chunks st.

Definition createChunks (results : list TranslationResult) (maxChars : Z)
  : list ChunkData :=
  chunkerFinish (fold_left (chunkStep maxChars) results chunkerInit).

(** The threshold used by [main] and the default of the parameter. *)
Definition defaultMaxChars : Z := 10000.

(* ================================================================== *)
(** ** The document assembler (the translation-file loop of [main]) *)
(* ================================================================== *)

Record AssemblerState := {
  translationText : jsstring;
  lastChapter : jsstring;
  lastSection : jsstring
}.

Definition assemblerInit : AssemblerState :=
  {| translationText := []; lastChapter := []; lastSection := [] |}.

Definition chapterHeading (chapter : jsstring) : jsstring :=
  nl ++ nl ++ rule80 ++ nl ++ chapter ++ nl ++ rule80 ++ nl ++ nl.

Definition sectionHeading (section : jsstring) : jsstring :=
  nl ++ js "--- " ++ section ++ js " ---" ++ nl ++ nl.

Definition addChapterHeading (result : TranslationResult)
           (st : AssemblerState) : AssemblerState :=
  if truthy (orEmpty (chapterTitle result))
     && negb (str_eqb (orEmpty (chapterTitle result)) (lastChapter st))
  then {| translationText :=
            translationText st
              ++ chapterHeading (orEmpty (chapterTitle result));
          lastChapter := orEmpty (chapterTitle result);
          lastSection := [] |}
  else st.

Definition addSectionHeading (result : TranslationResult)
           (st : AssemblerState) : AssemblerState :=
  if truthy (orEmpty (sectionTitle result))
     && negb (str_eqb (orEmpty (sectionTitle result)) (lastSection st))
  then {| translationText :=
            translationText st
              ++ sectionHeading (orEmpty (sectionTitle result));
          lastChapter := lastChapter st;
          lastSection := orEmpty (sectionTitle result) |}
  else st.

Definition addTranslation (result : TranslationResult)
           (st : AssemblerState) : AssemblerState :=
  {| translationText := translationText st ++ translation result ++ nl ++ nl;
     lastChapter := lastChapter st;
     lastSection := lastSection st |}.

(** One iteration of [for (const result of results)]. *)
Definition assembleStep (st : AssemblerState) (result : TranslationResult)
  : AssemblerState :=
  if negb (isOK (status result)) then st
  else addTranslation result
         (addSectionHeading result (addChapterHeading result st)).

Definition assemble (results : list TranslationResult) : AssemblerState :=
  fold_left assembleStep results assemblerInit.

(* ================================================================== *)
(** ** Effects: exceptions over a threaded state *)
(* ================================================================== *)

(** [new Error(message)] and the rejections of the collaborators. *)
Inductive Error := MkError (message : jsstring).

Inductive Outcome (A : Type) :=
| Ret (a : A)
| Throw (e : Error).

Arguments Ret {A} a.
Arguments Throw {A} e.

(** A computation runs on a state, returns or throws, and leaves the
    state it reached: what was done before a [throw] stays done. *)
Definition M (S A : Type) := S -> Outcome A * S.

Definition ret {S A : Type} (a : A) : M S A := fun s => (Ret a, s).

Definition throw {S A : Type} (e : Error) : M S A := fun s => (Throw e, s).

Definition bind {S A B : Type} (m : M S A) (k : A -> M S B) : M S B :=
  fun s =>
    match m s with
    | (Ret a, s') => k a s'
    | (Throw e, s') => (Throw e, s')
    end.

(** [try { body } catch (error) { handler }] *)
Definition tryCatch {S A : Type} (body : M S A) (handler : Error -> M S A)
  : M S A :=
  fun s =>
    match body s with
    | (Ret a, s') => (Ret a, s')
    | (Throw e, s') => handler e s'
    end.

Declare Scope monad_scope.
Delimit Scope monad_scope with monad.
Notation "x <- m ;; k" := (bind m (fun x => k))
  (at level 61, m at next level, right associativity) : monad_scope.
Notation "m ;; k" := (bind m (fun _ => k))
  (at level 61, right associativity) : monad_scope.
Open Scope monad_scope.

(** [for (const x of l) body(x)] *)
Fixpoint forEach {S A : Type} (l : list A) (body : A -> M S unit)
  : M S unit :=
  match l with
  | [] => ret tt
  | x :: l' => body x ;; forEach l' body
  end.

(* ================================================================== *)
(** ** The outside world *)
(* ================================================================== *)

(** What a request to the model is built from.  The prompt text and the
    data URL are functions of these fields. *)
Inductive Prompt :=
| PagePrompt (pageNumber : nat)
             (chapterContext previousContext imagePath base64File : jsstring)
| ChunkPrompt (chunkIndex totalChunks : nat) (chunk : ChunkData).

(** Every interaction with the outside is recorded, in order, with the
    answer that came back. *)
Inductive Event :=
| EvReadFile (filePath : jsstring) (reply : Error + jsstring)
| EvCreate (prompt : Prompt) (reply : Error + option jsstring)
| EvDelay (ms : nat).

Definition World := list Event.

(** The fields of the JSON object answered for a page. *)
Record ParsedResponse := {
  r_translation : jsstring;
  r_summary : jsstring;
  r_articleTitle : jsstring;
  r_chapterTitle : option jsstring;
  r_sectionTitle : option jsstring
}.

(** The collaborators that the repository does not define.
    [toLowerCase] is [String.prototype.toLowerCase].
    [readFile] is [fs.readFile(filePath)] followed by
    [toString('base64')]: it answers with the contents or rejects.
    [chatCreate] is [client.chat.completions.create(...)] followed by
    [response.choices[0]?.message?.content]: it rejects, or answers with
    the content, which may be missing.
    [parseResponse] is the JSON extraction of [processPage], the two
    regular expressions and [JSON.parse]: [None] when they throw.
    The file system and the model answer depending on the history. *)
Record Collaborators := {
  toLowerCase : jsstring -> jsstring;
  readFile : World -> jsstring -> Error + jsstring;
  chatCreate : World -> Prompt -> Error + option jsstring;
  parseResponse : jsstring -> option ParsedResponse
}.

(** [delay(ms)]: resolves after [ms] milliseconds, never rejects. *)
Definition delay (ms : nat) : M World unit :=
  fun w => (Ret tt, w ++ [EvDelay ms]).

Definition ofReply {A : Type} (r : Error + A) : Outcome A :=
  match r with
  | inl e => Throw e
  | inr a => Ret a
  end.

(** The locals of [main] that its loops mutate, next to the world. *)
Record MainState := {
  results : list TranslationResult;
  chunkSummaries : list jsstring;
  world : World
}.

Definition liftWorld {A : Type} (m : M World A) : M MainState A :=
  fun s =>
    let (o, w) := m (world s) in
    (o, {| results := results s;
           chunkSummaries := chunkSummaries s;
           world := w |}).

Definition getResults : M MainState (list TranslationResult) :=
  fun s => (Ret (results s), s).

(** [results.push(result)] *)
Definition pushResult (result : TranslationResult) : M MainState unit :=
  fun s =>
    (Ret tt, {| results := results s ++ [result];
                chunkSummaries := chunkSummaries s;
                world := world s |}).

(** [chunkSummaries.push(summary)] *)
Definition pushSummary (summary : jsstring) : M MainState unit :=
  fun s =>
    (Ret tt, {| results := results s;
                chunkSummaries := chunkSummaries s ++ [summary];
                world := world s |}).

Definition mainInit (w : World) : MainState :=
  {| results := []; chunkSummaries := []; world := w |}.

(* ================================================================== *)
(** ** Page context: the head of the page loop of [main] *)
(* ================================================================== *)

(** Reading a property of [undefined]. *)
Definition typeError : Error :=
  MkError (js "Cannot read properties of undefined").

(** [for (let j = i - 1; j >= 0; j--)], entered with [chapterContext]
    empty; the first argument is [j + 1].

    Titles are strings here, as [TranslationResult] declares them, and
    [includes] is the string method.  [JSON.parse] can hand
    [processPage] a title of another type, which it keeps; once such a
    value is the [chapterContext], the call [chapterContext.includes]
    throws and the [catch] of the page loop pushes the page without a
    call of [processPage].  The statements about the page loop that
    speak of the contexts or of the calls made are therefore stated for
    the pages whose contexts are computed; the loop on titles of any
    type is [chapterScanJS]. *)
Fixpoint chapterScan (results : list TranslationResult) (j1 : nat)
         (chapterContext : jsstring) : Error + jsstring :=
  match j1 with
  | 0 => inr chapterContext
  | S j =>
    match nth_error results j with
    | None => inl typeError
    | Some rj =>
      let prevChapter := orEmpty (chapterTitle rj) in
      let prevSection := orEmpty (sectionTitle rj) in
      if truthy prevChapter && negb (truthy chapterContext)
      then inr (if truthy prevSection
                then prevChapter ++ js " > " ++ prevSection
                else prevChapter)
      else if truthy prevSection && negb (includes chapterContext (js ">"))
      then chapterScan results j prevSection
      else chapterScan results j chapterContext
    end
  end.

(** [(previousContext, chapterContext)] for the page at index [i]. *)
Definition pageContexts (results : list TranslationResult) (i : nat)
  : Error + (jsstring * jsstring) :=
  match (if 0 <? i then nth_error results (i - 1) else None) with
  | Some prev =>
    if isOK (status prev)
    then
      let previousContext := sliceLast 200 (translation prev) in
      match chapterScan results i [] with
      | inl e => inl e
      | inr chapterContext => inr (previousContext, chapterContext)
      end
    else inr ([], [])
  | None => inr ([], [])
  end.

(* ================================================================== *)
(** ** [processPage], [summarizeChunk] and the loops of [main] *)
(* ================================================================== *)

Section Pipeline.

Variable env : Collaborators.

Definition encodeFileToBase64 (filePath : jsstring) : M World jsstring :=
  fun w =>
    let reply := readFile env w filePath in
    (ofReply reply, w ++ [EvReadFile filePath reply]).

Definition completionsCreate (prompt : Prompt)
  : M World (option jsstring) :=
  fun w =>
    let reply := chatCreate env w prompt in
    (ofReply reply, w ++ [EvCreate prompt reply]).

(** The body of the inner [try] of [processPage]. *)
Definition attempt (imagePath : jsstring) (pageNumber : nat)
           (previousContext chapterContext : jsstring) (retryCount : nat)
  : M World TranslationResult :=
  base64File <- encodeFileToBase64 imagePath ;;
  content <- completionsCreate
               (PagePrompt pageNumber chapterContext previousContext
                           imagePath base64File) ;;
  if negb (truthy (orEmpty content))
  then throw (MkError (js "No response from OpenAI"))
  else
    match parseResponse env (orEmpty content) with
    | None => throw (MkError (js "Invalid JSON response from OpenAI"))
    | Some parsedResponse =>
      if negb (isValidTranslation (toLowerCase env)
                 (r_translation parsedResponse)
                 (r_summary parsedResponse))
      then throw (MkError (js "Translation validation failed"))
      else ret {| pageNumber := pageNumber;
                  translation := r_translation parsedResponse;
                  summary := r_summary parsedResponse;
                  articleTitle := r_articleTitle parsedResponse;
                  chapterTitle :=
                    Some (orEmpty (r_chapterTitle parsedResponse));
                  sectionTitle :=
                    Some (orEmpty (r_sectionTitle parsedResponse));
                  status := OK;
                  retryCount := Some retryCount |}
    end.

(** The result returned after the loop: all retries exhausted. *)
Definition exhaustedResult (pageNumber maxRetries : nat)
  : TranslationResult :=
  {| pageNumber := pageNumber;
     translation :=
       js "שגיאה בעיבוד דף " ++ decimal pageNumber ++ js " - "
          ++ decimal (maxRetries + 1) ++ js " ניסיונות נכשלו";
     summary :=
       js "FAILED - " ++ decimal (maxRetries + 1)
          ++ js " attempts - manual review needed";
     articleTitle := js "שגיאה";
     chapterTitle := Some [];
     sectionTitle := Some [];
     status := FAILED;
     retryCount := Some (maxRetries + 1) |}.

(** The result returned by the outer [catch]. *)
Definition criticalResult (pageNumber : nat) : TranslationResult :=
  {| pageNumber := pageNumber;
     translation := js "שגיאה קריטית בעיבוד דף " ++ decimal pageNumber;
     summary := js "FAILED - Critical error";
     articleTitle := js "שגיאה";
     chapterTitle := Some [];
     sectionTitle := Some [];
     status := FAILED;
     retryCount := Some 0 |}.

(** [while (retryCount <= maxRetries) { try ... catch ... }] and the
    return that follows it.  [remaining] is the loop variant
    [maxRetries + 1 - retryCount]: the guard holds exactly when it is
    not zero (the loop is entered with [S maxRetries] and [0]). *)
Fixpoint retryLoop (imagePath : jsstring) (pageNumber : nat)
         (previousContext chapterContext : jsstring) (maxRetries : nat)
         (remaining retryCount : nat) : M World TranslationResult :=
  match remaining with
  | 0 => ret (exhaustedResult pageNumber maxRetries)
  | S remaining' =>
    tryCatch
      (attempt imagePath pageNumber previousContext chapterContext
               retryCount)
      (fun attemptError =>
         (if retryCount + 1 <=? maxRetries then delay 3000 else ret tt) ;;
         retryLoop imagePath pageNumber previousContext chapterContext
                   maxRetries remaining' (retryCount + 1))
  end.

(** The outer [try]/[catch] of [processPage]: whatever [body] throws
    becomes the critical result. *)
Definition pageBoundary (pageNumber : nat) (body : M World TranslationResult)
  : M World TranslationResult :=
  tryCatch body (fun error => ret (criticalResult pageNumber)).

Definition processPage (imagePath : jsstring) (pageNumber : nat)
           (previousContext chapterContext : jsstring) (maxRetries : nat)
  : M World TranslationResult :=
  pageBoundary pageNumber
    (retryLoop imagePath pageNumber previousContext chapterContext
               maxRetries (S maxRetries) 0).

(** The result pushed by the [catch] of the page loop. *)
Definition failedPage (pageNumber : nat) : TranslationResult :=
  {| pageNumber := pageNumber;
     translation := js "[שגיאה בעמוד " ++ decimal pageNumber ++ js "]";
     summary := js "FAILED";
     articleTitle := js "שגיאה";
     chapterTitle := Some [];
     sectionTitle := Some [];
     status := FAILED;
     retryCount := None |}.

(** One iteration of [for (let i = 0; i < imagePaths.length; i++)]. *)
Definition translatePage (imagePaths : list jsstring) (i : nat)
  : M MainState unit :=
  let pageNumber := i + 1 in
  tryCatch
    (done <- getResults ;;
     contexts <- (fun s => (ofReply (pageContexts done i), s)) ;;
     result <- liftWorld
                 (processPage (nth i imagePaths []) pageNumber
                              (fst contexts) (snd contexts) 3) ;;
     pushResult result ;;
     if i <? List.length imagePaths - 1
     then liftWorld (delay 1000)
     else ret tt)
    (fun error => pushResult (failedPage pageNumber)).

Definition translatePages (imagePaths : list jsstring) : M MainState unit :=
  forEach (seq 0 (List.length imagePaths)) (translatePage imagePaths).

(** [summarizeChunk] *)
Definition summaryError (chunk : ChunkData) : jsstring :=
  js "שגיאה בסיכום " ++ title chunk.

Definition summarizeChunk (chunk : ChunkData) (chunkIndex totalChunks : nat)
  : M World jsstring :=
  tryCatch
    (content <- completionsCreate
                  (ChunkPrompt chunkIndex totalChunks chunk) ;;
     ret (match content with
          | Some c => trim c
          | None => []
          end))
    (fun error => ret (summaryError chunk)).

Definition emptyChunk : ChunkData :=
  {| title := []; text := []; pages := [] |}.

(** One iteration of [for (let i = 0; i < chunks.length; i++)]. *)
Definition summarizeAt (chunks : list ChunkData) (i : nat)
  : M MainState unit :=
  summary <- liftWorld
               (summarizeChunk (nth i chunks emptyChunk) i
                               (List.length chunks)) ;;
  pushSummary summary ;;
  if i <? List.length chunks - 1
  then liftWorld (delay 1000)
  else ret tt.

Definition summarizeChunks (chunks : list ChunkData) : M MainState unit :=
  forEach (seq 0 (List.length chunks)) (summarizeAt chunks).

End Pipeline.

(* ================================================================== *)
(** ** Vocabulary of the statements *)
(* ================================================================== *)

(** A successful page as [processPage] returns it. *)
Definition okPage (n : nat) (body chapter section : jsstring)
  : TranslationResult :=
  {| pageNumber := n;
     translation := body;
     summary := js "סיכום קצר של העמוד";
     articleTitle := js "מאמר";
     chapterTitle := Some chapter;
     sectionTitle := Some section;
     status := OK;
     retryCount := Some 0 |}.

(** Page numbers of the results with status [OK], in order. *)
Definition okPageNumbers (results : list TranslationResult) : list nat :=
  map pageNumber (filter (fun r => isOK (status r)) results).

(** Every page number the chunker holds: closed chunks, then the open
    one. *)
Definition allPages (st : ChunkerState) : list nat :=
  concat (map pages (chunks st)) ++ pages (currentChunk st).





(** The chapter context as the repository's process description gives
    it: the nearest earlier result with a chapter title, with its own
    section. *)
Fixpoint documentedChapterContext (results : list TranslationResult)
         (j1 : nat) : jsstring :=
  match j1 with
  | 0 => []
  | S j =>
    match nth_error results j with
    | None => []
    | Some rj =>
      if truthy (orEmpty (chapterTitle rj))
      then (if truthy (orEmpty (sectionTitle rj))
            then orEmpty (chapterTitle rj) ++ js " > "
                   ++ orEmpty (sectionTitle rj)
            else orEmpty (chapterTitle rj))
      else documentedChapterContext results j
    end
  end.


Definition threePages : list TranslationResult :=
  [ okPage 1 (js "first page body") (js "A") [];
    okPage 2 (js "second page body") [] [];
    okPage 3 (js "third page body") [] (js "B") ].

Definition halfPage (n : nat) : TranslationResult :=
  okPage n (repeat 1488%N 4999) [] [].

Definition twoHalfPages : list TranslationResult :=
  [ halfPage 1; halfPage 2 ].

(** An open chunk without text has no pages. *)
Definition openChunkConsistent (st : ChunkerState) : Prop :=
  truthy (text (currentChunk st)) = false -> pages (currentChunk st) = [].

(** What the size check does guarantee: a chunk of several pages is at
    most two characters above the threshold, the separator appended
    after its last page. *)
Definition nearLimit (maxChars : Z) (c : ChunkData) : Prop :=
  2 <= List.length (pages c) ->
  (Z.of_nat (List.length (text c)) <= maxChars + 2)%Z.

Definition chunkerBounded (maxChars : Z) (st : ChunkerState) : Prop :=
  Forall (nearLimit maxChars) (chunks st)
  /\ nearLimit maxChars (currentChunk st)
  /\ openChunkConsistent st.

Definition notOK (r : TranslationResult) : Prop := isOK (status r) = false.

(** What one attempt leaves in the history: the file read, and the
    request when the read succeeded. *)
Definition attemptEvents (imagePath : jsstring) (evs : list Event) : Prop :=
  (exists e, evs = [EvReadFile imagePath (inl e)])
  \/ (exists base64File prompt reply,
         evs = [EvReadFile imagePath (inr base64File);
                EvCreate prompt reply]).

(** [blocks] in order, with [sep] between two successive ones. *)
Fixpoint joinWith (sep : list Event) (blocks : list (list Event))
  : list Event :=
  match blocks with
  | [] => []
  | b :: rest =>
    match rest with
    | [] => b
    | _ :: _ => b ++ sep ++ joinWith sep rest
    end
  end.

(** A result that a page can end with: its own page number, [OK] with a
    validated translation or [FAILED], never [RETRY]. *)
Definition pageOutcome (lower : jsstring -> jsstring)
           (n : nat) (r : TranslationResult) : Prop :=
  pageNumber r = n
  /\ ((status r = OK
       /\ isValidTranslation lower (translation r) (summary r) = true)
      \/ status r = FAILED).

(** The state of [main] when iteration [k] of the page loop begins. *)
Definition pageLoopState (env : Collaborators)
           (imagePaths : list jsstring) (w : World) (k : nat) : MainState :=
  snd (forEach (seq 0 k)
               (translatePage env imagePaths)
               (mainInit w)).

(** The state of [main] when iteration [k] of the summary loop begins. *)
Definition summaryLoopState
           (env : Collaborators)
           (chunks : list ChunkData) (s0 : MainState) (k : nat) : MainState :=
  snd (forEach (seq 0 k) (summarizeAt env chunks) s0).

(** A translated page has a translation. *)
Definition translated (r : TranslationResult) : Prop :=
  status r = OK -> translation r <> [].

(** [h] is the history [w] with more events after it. *)
Definition extends (w h : World) : Prop := exists tail, h = w ++ tail.

(** From the history [w] on, no answer to the requests of this page
    passes validation. *)
Definition noValidAnswer (env : Collaborators)
           (imagePath : jsstring) (pageNo : nat)
           (previousContext chapterContext : jsstring) (w : World) : Prop :=
  forall (h : World) (base64File : jsstring) (content : option jsstring)
         (parsed : ParsedResponse),
    extends w h ->
    chatCreate env h (PagePrompt pageNo chapterContext previousContext
                             imagePath base64File) = inr content ->
    parseResponse env (orEmpty content) = Some parsed ->
    isValidTranslation (toLowerCase env) (r_translation parsed)
                       (r_summary parsed) = false.

Definition shortAnswer : ParsedResponse :=
  {| r_translation := js "קצר";
     r_summary := js "סיכום ארוך מספיק של העמוד";
     r_articleTitle := js "מאמר";
     r_chapterTitle := None;
     r_sectionTitle := None |}.

Definition goodAnswer : ParsedResponse :=
  {| r_translation := js "תרגום מלא של העמוד הנוכחי";
     r_summary := js "סיכום ארוך מספיק של העמוד";
     r_articleTitle := js "מאמר";
     r_chapterTitle := Some (js "פרק 1");
     r_sectionTitle := None |}.

(** Sample collaborators: the file is always read; the model always
    answers, with a translation that is too short ([demoShort]) or with
    a good page ([demoGood]), or always rejects ([demoFailing]). *)
Definition demoShort : Collaborators :=
  {| toLowerCase := toLowerCaseAscii;
     readFile := fun _ _ => inr (js "iVBORw0KGgo=");
     chatCreate := fun _ _ => inr (Some (js "{ }"));
     parseResponse := fun _ => Some shortAnswer |}.

Definition demoGood : Collaborators :=
  {| toLowerCase := toLowerCaseAscii;
     readFile := fun _ _ => inr (js "iVBORw0KGgo=");
     chatCreate := fun _ _ => inr (Some (js "{ }"));
     parseResponse := fun _ => Some goodAnswer |}.

Definition demoFailing : Collaborators :=
  {| toLowerCase := toLowerCaseAscii;
     readFile := fun _ _ => inr (js "iVBORw0KGgo=");
     chatCreate := fun _ _ => inl (MkError (js "429 rate limit"));
     parseResponse := fun _ => None |}.

Definition demoPaths : list jsstring :=
  [ js "temp_pages/page_1.png"; js "temp_pages/page_2.png" ].

Definition demoChunks : list ChunkData :=
  [ {| title := js "פרק 1"; text := js "abc"; pages := [1] |};
    {| title := js "פרק 2"; text := js "def"; pages := [2; 3] |} ].


(* ================================================================== *)
(** ** Vocabulary of the further properties *)
(* ================================================================== *)

(** The results with status [OK], in order. *)
Definition okResults (results : list TranslationResult)
  : list TranslationResult :=
  filter (fun r => isOK (status r)) results.

(** The text that a run of pages puts into a chunk. *)
Definition pagesText (seg : list TranslationResult) : jsstring :=
  flat_map (fun r => translation r ++ nl ++ nl) seg.

(** The chunk [c] holds the pages [seg], and at least one. *)
Definition chunkOf (c : ChunkData) (seg : list TranslationResult) : Prop :=
  seg <> []
  /\ pages c = map pageNumber seg
  /\ text c = pagesText seg.

(** The chapter and the section tracked after an OK page. *)
Definition chapterAfter (currentChapter : jsstring)
           (result : TranslationResult) : jsstring :=
  if truthy (orEmpty (chapterTitle result))
  then orEmpty (chapterTitle result) else currentChapter.

Definition sectionAfter (currentSection : jsstring)
           (result : TranslationResult) : jsstring :=
  if truthy (orEmpty (sectionTitle result))
  then orEmpty (sectionTitle result)
  else if truthy (orEmpty (chapterTitle result))
       then [] else currentSection.

(** The content title of every OK page, in order, when the walk starts
    with the given chapter and section. *)
Fixpoint contentTitles (currentChapter currentSection : jsstring)
         (results : list TranslationResult) : list jsstring :=
  match results with
  | [] => []
  | result :: rest =>
    if isOK (status result)
    then contentTitleOf (chapterAfter currentChapter result)
                        (sectionAfter currentSection result)
           :: contentTitles (chapterAfter currentChapter result)
                            (sectionAfter currentSection result) rest
    else contentTitles currentChapter currentSection rest
  end.

(** The title of the chunk of every page, in page order. *)
Definition chunkTitles (chunks : list ChunkData) : list jsstring :=
  flat_map (fun c => map (fun _ => title c) (pages c)) chunks.

(** The chunker has split [oks] into its closed chunks and the pages of
    the open one. *)
Definition segmented (st : ChunkerState) (oks : list TranslationResult)
  : Prop :=
  exists segs open,
    concat segs ++ open = oks
    /\ Forall2 chunkOf (chunks st) segs
    /\ pages (currentChunk st) = map pageNumber open
    /\ text (currentChunk st) = pagesText open.

(** The open chunk has a title and text exactly when it has pages. *)
Definition openChunkTitled (st : ChunkerState) : Prop :=
  (pages (currentChunk st) = [] ->
   title (currentChunk st) = [] /\ text (currentChunk st) = [])
  /\ (pages (currentChunk st) <> [] ->
      title (currentChunk st) <> [] /\ text (currentChunk st) <> []).

Definition smallPages : list TranslationResult :=
  [ okPage 1 (js "body of page one") (js "A") [];
    failedPage 2;
    okPage 3 (js "body of page three") [] [];
    okPage 4 (js "body of page four") [] (js "S") ].

(** What the assembler may put in front of the translation of a page:
    the chapter heading of the page when it has a chapter title, then
    the section heading of the page when it has a section title. *)
Definition headingOf (r : TranslationResult) (h : jsstring) : Prop :=
  exists c s,
    h = c ++ s
    /\ (c = []
        \/ (orEmpty (chapterTitle r) <> []
            /\ c = chapterHeading (orEmpty (chapterTitle r))))
    /\ (s = []
        \/ (orEmpty (sectionTitle r) <> []
            /\ s = sectionHeading (orEmpty (sectionTitle r)))).

(** Pages with what precedes each, every page followed by a blank
    line. *)
Fixpoint pagesWithHeadings (oks : list TranslationResult)
         (heads : list jsstring) : jsstring :=
  match oks, heads with
  | r :: oks', h :: heads' =>
    h ++ translation r ++ nl ++ nl ++ pagesWithHeadings oks' heads'
  | _, _ => []
  end.

(** [r.status === 'FAILED'] *)
Definition isFAILED (s : Status) : bool :=
  match s with FAILED => true | _ => false end.

(** The events of one call of [processPage] from the page loop: at most
    four attempts, 3000 ms apart. *)
Definition pageBlock (imagePath : jsstring) (blk : list Event) : Prop :=
  exists attempts,
    1 <= List.length attempts <= 4
    /\ Forall (attemptEvents imagePath) attempts
    /\ blk = joinWith [EvDelay 3000] attempts.

(** A page without chapter and section title. *)
Definition untitled (r : TranslationResult) : Prop :=
  orEmpty (chapterTitle r) = [] /\ orEmpty (sectionTitle r) = [].

(** The summary that [summarizeChunk] makes of an answer. *)
Definition summaryOf (chunk : ChunkData) (reply : Error + option jsstring)
  : jsstring :=
  match reply with
  | inl _ => js "שגיאה בסיכום " ++ title chunk
  | inr (Some content) => trim content
  | inr None => []
  end.

(** One request per chunk, numbered from [i]. *)
Fixpoint requestBlocks (i n : nat) (chunks : list ChunkData)
         (replies : list (Error + option jsstring)) : list (list Event) :=
  match chunks, replies with
  | c :: chunks', reply :: replies' =>
    [EvCreate (ChunkPrompt i n c) reply]
      :: requestBlocks (S i) n chunks' replies'
  | _, _ => []
  end.

Fixpoint summariesOf (chunks : list ChunkData)
         (replies : list (Error + option jsstring)) : list jsstring :=
  match chunks, replies with
  | c :: chunks', reply :: replies' =>
    summaryOf c reply :: summariesOf chunks' replies'
  | _, _ => []
  end.

(* ================================================================== *)
(** ** envLoader: [loadEnvVariables] and [getEnvVar] *)
(* ================================================================== *)

(** [process.env] at the names of environment variables: the value of
    a variable, if it is set. *)
Definition ProcessEnv := jsstring -> option jsstring.

Inductive EnvEvent :=
| EvExists (envPath : jsstring) (reply : bool)
| EvConfig (envPath : jsstring) (reply : option Error).

Record EnvState := {
  processEnv : ProcessEnv;
  envHistory : list EnvEvent
}.

(** [fs.existsSync(envPath)] and [dotenv.config({ path: envPath })].
    Neither throws: [dotenvConfig] answers with the [error] field of the
    object that [dotenv.config] returns and with [process.env] as it
    leaves it.  Both answer depending on the history. *)
Record EnvFiles := {
  existsSync : list EnvEvent -> jsstring -> bool;
  dotenvConfig : list EnvEvent -> ProcessEnv -> jsstring
                 -> option Error * ProcessEnv
}.

Definition getProcessEnv : M EnvState ProcessEnv :=
  fun s => (Ret (processEnv s), s).

(** [a.join(sep)] on strings. *)
Fixpoint joinStrings (sep : jsstring) (l : list jsstring) : jsstring :=
  match l with
  | [] => []
  | a :: rest =>
    match rest with
    | [] => a
    | _ :: _ => a ++ sep ++ joinStrings sep rest
    end
  end.

(** The candidates, from [path.resolve(process.cwd(), '.env.local')],
    [path.resolve(__dirname, '..', '..', '.env.local')] and
    [path.join(process.cwd(), '.env.local')]. *)
Definition possiblePaths (resolvedCwd resolvedDir joinedCwd : jsstring)
  : list jsstring :=
  [ resolvedCwd; resolvedDir; joinedCwd; js ".env.local" ].

Definition requiredVars : list jsstring :=
  [ js "OPENAI_API_KEY";
    js "GOOGLE_SHEET_ID";
    js "GOOGLE_SERVICE_ACCOUNT_EMAIL";
    js "GOOGLE_PRIVATE_KEY" ].

(** [!process.env[varName]] *)
Definition isUnset (env : ProcessEnv) (varName : jsstring) : bool :=
  negb (truthy (orEmpty (env varName))).

Definition notFound : Error :=
  MkError
    (js "Failed to load environment variables - .env.local file not found").

Section EnvLoader.

Variable files : EnvFiles.

Definition probe (envPath : jsstring) : M EnvState bool :=
  fun s =>
    let found := existsSync files (envHistory s) envPath in
    (Ret found,
     {| processEnv := processEnv s;
        envHistory := envHistory s ++ [EvExists envPath found] |}).

Definition config (envPath : jsstring) : M EnvState (option Error) :=
  fun s =>
    let (error, env') :=
        dotenvConfig files (envHistory s) (processEnv s) envPath in
    (Ret error,
     {| processEnv := env';
        envHistory := envHistory s ++ [EvConfig envPath error] |}).

(** [for (const envPath of possiblePaths)] with its [break]; the value
    is [(result.error, loadedPath)]. *)
Fixpoint findEnvFile (paths : list jsstring)
  : M EnvState (option Error * option jsstring) :=
  match paths with
  | [] => ret (Some (MkError (js "No .env.local file found")), None)
  | envPath :: rest =>
    found <- probe envPath ;;
    if found
    then error <- config envPath ;; ret (error, Some envPath)
    else findEnvFile rest
  end.

(** What [loadEnvVariables] does once the loop has ended. *)
Definition validateEnv (found : option Error * option jsstring)
  : M EnvState unit :=
  let loaded := match snd found with
                | Some loadedPath => truthy loadedPath
                | None => false
                end in
  let failed := match fst found with
                | Some _ => true
                | None => false
                end in
  if failed || negb loaded
  then throw notFound
  else
    env <- getProcessEnv ;;
    let missingVars := filter (isUnset env) requiredVars in
    if 0 <? List.length missingVars
    then throw (MkError (js "Missing environment variables: "
                           ++ joinStrings (js ", ") missingVars))
    else ret tt.

Definition loadEnvVariables (resolvedCwd resolvedDir joinedCwd : jsstring)
  : M EnvState unit :=
  found <- findEnvFile (possiblePaths resolvedCwd resolvedDir joinedCwd) ;;
  validateEnv found.

End EnvLoader.

(** [getEnvVar] *)
Definition getEnvVar (key : jsstring) : M EnvState jsstring :=
  env <- getProcessEnv ;;
  let value := env key in
  if negb (truthy (orEmpty value))
  then throw (MkError (js "Environment variable " ++ key
                         ++ js " is not set"))
  else ret (orEmpty value).

(** The probes that found nothing. *)
Definition absent (paths : list jsstring) : list EnvEvent :=
  map (fun p => EvExists p false) paths.

(** A project whose [.env.local] sits where the third candidate looks
    and sets the four variables. *)
Definition demoVars (key : jsstring) : option jsstring :=
  if existsb (str_eqb key) requiredVars then Some (js "value") else None.

Definition demoFiles : EnvFiles :=
  {| existsSync := fun _ p => str_eqb p (js "/app/.env.local");
     dotenvConfig := fun _ _ _ => (None, demoVars) |}.

Definition demoEnvState : EnvState :=
  {| processEnv := fun _ => None; envHistory := [] |}.

(* ================================================================== *)
(** ** pdfProcessorJS: [splitPdfToImagesJS] *)
(* ================================================================== *)

Inductive PdfEvent :=
| EvEnsureDir (dir : jsstring) (reply : option Error)
| EvLoadPdf (pdfPath : jsstring) (reply : Error + nat)
| EvRenderPage (pdfPath : jsstring) (pageNumber : nat)
               (outputPath : jsstring) (reply : option Error).

(** [pathJoin] is [path.join] of two segments.
    [ensureDir] is [fs.ensureDir(outputDir)]: it resolves or rejects.
    [loadPdf] is [fs.readFile(pdfPath)], [getDocument({ data }).promise]
    and [numPages]: it rejects, or answers with the page count.
    [renderPage] is the body of the [try] of [convertPageToImage]: the
    document is read and loaded, the page rendered on a canvas and the
    PNG written to [outputPath]; it resolves or rejects.
    The file system answers depending on the history. *)
Record PdfTools := {
  pathJoin : jsstring -> jsstring -> jsstring;
  ensureDir : list PdfEvent -> jsstring -> option Error;
  loadPdf : list PdfEvent -> jsstring -> Error + nat;
  renderPage : list PdfEvent -> jsstring -> nat -> jsstring -> option Error
}.

(** [`page_${pageNum}.png`] *)
Definition pageFile (pageNum : nat) : jsstring :=
  js "page_" ++ decimal pageNum ++ js ".png".

Section PdfProcessor.

Variable tools : PdfTools.

Definition ensureOutputDir (outputDir : jsstring)
  : M (list PdfEvent) unit :=
  fun w =>
    let reply := ensureDir tools w outputDir in
    (match reply with Some e => Throw e | None => Ret tt end,
     w ++ [EvEnsureDir outputDir reply]).

Definition numPages (pdfPath : jsstring) : M (list PdfEvent) nat :=
  fun w =>
    let reply := loadPdf tools w pdfPath in
    (ofReply reply, w ++ [EvLoadPdf pdfPath reply]).

Definition render (pdfPath : jsstring) (pageNumber : nat)
           (outputPath : jsstring) : M (list PdfEvent) unit :=
  fun w =>
    let reply := renderPage tools w pdfPath pageNumber outputPath in
    (match reply with Some e => Throw e | None => Ret tt end,
     w ++ [EvRenderPage pdfPath pageNumber outputPath reply]).

(** [convertPageToImage] *)
Definition convertPageToImage (pdfPath : jsstring) (pageNumber : nat)
           (outputPath : jsstring) : M (list PdfEvent) jsstring :=
  tryCatch
    (render pdfPath pageNumber outputPath ;; ret outputPath)
    (fun error => throw error).

(** [for (let pageNum = 1; pageNum <= pageCount; pageNum++)], over the
    page numbers left, with the [imagePaths] pushed so far. *)
Fixpoint convertPages (pdfPath outputDir : jsstring) (pageNums : list nat)
         (imagePaths : list jsstring) : M (list PdfEvent) (list jsstring) :=
  match pageNums with
  | [] => ret imagePaths
  | pageNum :: rest =>
    let outputPath := pathJoin tools outputDir (pageFile pageNum) in
    convertPageToImage pdfPath pageNum outputPath ;;
    convertPages pdfPath outputDir rest (imagePaths ++ [outputPath])
  end.

(** [splitPdfToImagesJS] *)
Definition splitPdfToImagesJS (pdfPath outputDir : jsstring)
  : M (list PdfEvent) (list jsstring) :=
  tryCatch
    (ensureOutputDir outputDir ;;
     pageCount <- numPages pdfPath ;;
     convertPages pdfPath outputDir (seq 1 pageCount) [])
    (fun error => throw error).

End PdfProcessor.

(** The image of page [k] in [outputDir]. *)
Definition pagePath (tools : PdfTools) (outputDir : jsstring) (k : nat)
  : jsstring :=
  pathJoin tools outputDir (pageFile k).

(** The pages rendered without an error. *)
Definition rendered (tools : PdfTools) (pdfPath outputDir : jsstring)
           (pageNums : list nat) : list PdfEvent :=
  map (fun k => EvRenderPage pdfPath k (pagePath tools outputDir k) None)
      pageNums.

(** A document of two pages that converts without trouble. *)
Definition demoTools : PdfTools :=
  {| pathJoin := fun dir file => dir ++ js "/" ++ file;
     ensureDir := fun _ _ => None;
     loadPdf := fun _ _ => inr 2;
     renderPage := fun _ _ _ _ => None |}.

(* ================================================================== *)
(** ** The summary file (the last loop of [main]) *)
(* ================================================================== *)

(** [${pages[i]}]: the page number, or [undefined] out of range. *)
Definition pageAt (pages : list nat) (i : nat) : jsstring :=
  match nth_error pages i with
  | Some p => decimal p
  | None => js "undefined"
  end.

(** What one chunk adds to [structuredSummary].  The index of the last
    page is [pages.length - 1], which is out of range when there is no
    page. *)
Definition summarySection (chunk : ChunkData) (chunkSummary : option jsstring)
  : jsstring :=
  rule80 ++ nl
    ++ title chunk ++ nl
    ++ js "(עמודים " ++ pageAt (pages chunk) 0 ++ js "-"
    ++ pageAt (pages chunk) (List.length (pages chunk) - 1) ++ js ")" ++ nl
    ++ rule80 ++ nl ++ nl
    ++ match chunkSummary with
       | Some summary => summary
       | None => js "undefined"
       end ++ nl ++ nl.

(** [for (let i = 0; i < chunks.length; i++)] *)
Definition structuredSummary (chunks : list ChunkData)
           (chunkSummaries : list jsstring) : jsstring :=
  fold_left
    (fun acc i =>
       acc ++ summarySection (nth i chunks emptyChunk)
                             (nth_error chunkSummaries i))
    (seq 0 (List.length chunks)) [].

(** The section of a chunk with its first and last page. *)
Definition sectionOf (chunk : ChunkData) (chunkSummary : jsstring)
  : jsstring :=
  rule80 ++ nl
    ++ title chunk ++ nl
    ++ js "(עמודים " ++ decimal (hd 0 (pages chunk)) ++ js "-"
    ++ decimal (last (pages chunk) 0) ++ js ")" ++ nl
    ++ rule80 ++ nl ++ nl
    ++ chunkSummary ++ nl ++ nl.

Fixpoint sectionsOf (chunks : list ChunkData) (summaries : list jsstring)
  : jsstring :=
  match chunks, summaries with
  | c :: chunks', s :: summaries' =>
    sectionOf c s ++ sectionsOf chunks' summaries'
  | _, _ => []
  end.

(* ================================================================== *)
(** ** checkEnv: what is shown of a value *)
(* ================================================================== *)

(** [value.substring(start, end)] for [0 <= start <= end]. *)
Definition substring (s : jsstring) (first last : nat) : jsstring :=
  firstn (last - first) (skipn first s).

(** [masked] in [checkEnv]. *)
Definition masked (value : jsstring) : jsstring :=
  if 8 <? List.length value
  then substring value 0 4 ++ js "..."
         ++ substring value (List.length value - 4) (List.length value)
  else js "****".

(** The history at which the attempt after the attempts [failed]
    starts: every failed attempt is followed by its delay. *)
Definition afterFailed (w : World) (failed : list (list Event)) : World :=
  w ++ flat_map (fun evs => evs ++ [EvDelay 3000]) failed.

(** An event that belongs to the page [pageNo] with image [imagePath]:
    a read of that file, a request that carries that page number and
    that image, or a delay. *)
Definition eventOfPage (imagePath : jsstring) (pageNo : nat) (ev : Event)
  : Prop :=
  match ev with
  | EvReadFile filePath _ => filePath = imagePath
  | EvCreate prompt _ =>
    exists chapterContext previousContext base64File,
      prompt = PagePrompt pageNo chapterContext previousContext
                          imagePath base64File
  | EvDelay _ => True
  end.

(** The contexts of every page are computed: no scan for the chapter
    context throws. *)
Definition contextsComputed (env : Collaborators)
           (imagePaths : list jsstring) (w : World) : Prop :=
  forall i,
    i < List.length imagePaths ->
    exists previousContext chapterContext,
      pageContexts (results (pageLoopState env imagePaths w i)) i
      = inr (previousContext, chapterContext).

(** A model whose first request is rejected and whose later requests
    are answered with a good page. *)
Definition demoSecond : Collaborators :=
  {| toLowerCase := toLowerCaseAscii;
     readFile := fun _ _ => inr (js "iVBORw0KGgo=");
     chatCreate := fun w _ =>
                     if List.length w <? 2
                     then inl (MkError (js "429 rate limit"))
                     else inr (Some (js "{ }"));
     parseResponse := fun _ => Some goodAnswer |}.

(* ================================================================== *)
(** ** The scan for the chapter context on titles of any type *)
(* ================================================================== *)

(** A title that is not a string and that [x || ''] keeps: a number
    other than 0, [true], an array or an object, as [JSON.parse] makes
    them.  The scan tests it for truth (it is truthy), converts it to
    text when it appends to it, and calls [.includes('>')] on it: an
    array answers that call, on any other such value the call throws.
    Every such title has a text: on one that cannot be converted the
    log line of [processPage] throws, the attempt fails, and the value
    never reaches a result. *)
Record JsValue := {
  valueText : jsstring;
  valueIncludes : option bool
}.

(** [results[j].chapterTitle || ''] and [results[j].sectionTitle || '']
    as the page loop can find them. *)
Inductive Title :=
| TString (s : jsstring)
| TValue (v : JsValue).

Definition titleTruthy (t : Title) : bool :=
  match t with
  | TString s => truthy s
  | TValue _ => true
  end.

Definition titleText (t : Title) : jsstring :=
  match t with
  | TString s => s
  | TValue v => valueText v
  end.

Definition notAFunction : Error :=
  MkError (js "chapterContext.includes is not a function").

(** [t.includes('>')] *)
Definition includesGt (t : Title) : Error + bool :=
  match t with
  | TString s => inr (includes s (js ">"))
  | TValue v =>
    match valueIncludes v with
    | Some found => inr found
    | None => inl notAFunction
    end
  end.

(** The loop of [chapterScan] on the pairs of chapter and section title
    of the results, whatever their type. *)
Fixpoint chapterScanJS (titles : list (Title * Title)) (j1 : nat)
         (chapterContext : Title) : Error + Title :=
  match j1 with
  | 0 => inr chapterContext
  | S j =>
    match nth_error titles j with
    | None => inl typeError
    | Some (prevChapter, prevSection) =>
      if titleTruthy prevChapter && negb (titleTruthy chapterContext)
      then inr (if titleTruthy prevSection
                then TString (titleText prevChapter ++ js " > "
                                ++ titleText prevSection)
                else prevChapter)
      else if titleTruthy prevSection
      then match includesGt chapterContext with
           | inl e => inl e
           | inr found =>
             if negb found
             then chapterScanJS titles j prevSection
             else chapterScanJS titles j chapterContext
           end
      else chapterScanJS titles j chapterContext
    end
  end.


(** A title on which [.includes('>')] does not throw: a string or an
    array. *)
Definition answersIncludes (t : Title) : Prop :=
  exists found, includesGt t = inr found.

(** Page 1 with the section "S", page 2 with the number 5 as its
    section. *)
Definition numberSection : list (Title * Title) :=
  [ (TString [], TString (js "S"));
    (TString [],
     TValue {| valueText := js "5"; valueIncludes := None |}) ].

(* ================================================================== *)
(** ** Strings *)
(* ================================================================== *)

Lemma truthy_false_iff (s : jsstring) : truthy s = false <-> s = [].
Proof. destruct s; simpl; split; congruence. Qed.

Lemma truthy_true_iff (s : jsstring) : truthy s = true <-> s <> [].
Proof. destruct s; simpl; split; congruence. Qed.

Lemma truthy_app_nl (a b : jsstring) : truthy (a ++ b ++ nl ++ nl) = true.
Proof. destruct a; [destruct b|]; reflexivity. Qed.

Lemma str_eqb_eq (a b : jsstring) : str_eqb a b = true <-> a = b.
Proof.
  revert b; induction a as [|x a IH]; intros [|y b]; simpl;
    try (split; congruence).
  rewrite andb_true_iff, N.eqb_eq, IH. split.
  - intros [-> ->]; reflexivity.
  - intros E; injection E; auto.
Qed.



Lemma sliceLast_length (n : nat) (s : jsstring) :
  List.length (sliceLast n s) <= n.
Proof. unfold sliceLast. rewrite length_skipn. lia. Qed.

Lemma sliceLast_suffix (n : nat) (s : jsstring) :
  exists front, s = front ++ sliceLast n s.
Proof.
  exists (firstn (List.length s - n) s). unfold sliceLast.
  symmetry; apply firstn_skipn.
Qed.

Lemma sliceLast_nonempty (n : nat) (s : jsstring) :
  0 < n -> s <> [] -> sliceLast n s <> [].
Proof.
  intros Hn Hs E.
  assert (L : List.length (sliceLast n s) = 0) by (rewrite E; reflexivity).
  unfold sliceLast in L. rewrite length_skipn in L.
  destruct s as [|c s]; [congruence|].
  assert (0 < List.length (c :: s)) by (simpl; lia). lia.
Qed.

(* ================================================================== *)
(** ** Validation *)
(* ================================================================== *)

Section ValidationFacts.

Variable lower : jsstring -> jsstring.


Lemma isValidTranslation_true_nonempty (t s : jsstring) :
  isValidTranslation lower t s = true -> t <> [].
Proof.
  unfold isValidTranslation. destruct t; simpl; congruence.
Qed.

End ValidationFacts.



(* ================================================================== *)
(** ** The chunker *)
(* ================================================================== *)

Lemma concat_pages_snoc (l : list ChunkData) (c : ChunkData) :
  concat (map pages (l ++ [c])) = concat (map pages l) ++ pages c.
Proof. rewrite map_app, concat_app. simpl. rewrite app_nil_r. reflexivity. Qed.

Lemma chunkStep_skip (maxChars : Z) (st : ChunkerState)
      (r : TranslationResult) :
  isOK (status r) = false -> chunkStep maxChars st r = st.
Proof. intros H. unfold chunkStep. rewrite H. reflexivity. Qed.

Lemma chunkStep_allPages (maxChars : Z) (st : ChunkerState)
      (r : TranslationResult) :
  allPages (chunkStep maxChars st r) =
  allPages st ++ (if isOK (status r) then [pageNumber r] else []).
Proof.
  unfold chunkStep, allPages.
  destruct (isOK (status r)); cbn [negb].
  2:{ rewrite app_nil_r. reflexivity. }
  cbv zeta.
  match goal with
  | |- context [if ?c then (_, _) else (_, _)] => destruct c
  end; cbn [fst snd chunks currentChunk pages].
  - rewrite concat_pages_snoc. simpl. rewrite <- app_assoc. reflexivity.
  - rewrite app_assoc. reflexivity.
Qed.

Lemma chunkStep_consistent (maxChars : Z) (st : ChunkerState)
      (r : TranslationResult) :
  openChunkConsistent st -> openChunkConsistent (chunkStep maxChars st r).
Proof.
  intros H. unfold chunkStep.
  destruct (isOK (status r)); cbn [negb]; [|exact H].
  unfold openChunkConsistent. cbn [currentChunk text].
  rewrite truthy_app_nl. discriminate.
Qed.

Lemma chunker_fold (maxChars : Z) (results : list TranslationResult) :
  forall st,
    openChunkConsistent st ->
    openChunkConsistent (fold_left (chunkStep maxChars) results st)
    /\ allPages (fold_left (chunkStep maxChars) results st)
       = allPages st ++ okPageNumbers results.
Proof.
  induction results as [|r results IH]; intros st Hst; simpl.
  - split; [exact Hst|]. unfold okPageNumbers. simpl.
    rewrite app_nil_r. reflexivity.
  - destruct (IH (chunkStep maxChars st r)
                 (chunkStep_consistent maxChars r Hst)) as [H1 H2].
    split; [exact H1|]. rewrite H2, chunkStep_allPages.
    unfold okPageNumbers. simpl.
    destruct (isOK (status r)); simpl; rewrite <- app_assoc; reflexivity.
Qed.

Lemma chunkerFinish_pages (st : ChunkerState) :
  openChunkConsistent st ->
  concat (map pages (chunkerFinish st)) = allPages st.
Proof.
  intros H. unfold chunkerFinish, allPages.
  destruct (truthy (text (currentChunk st))) eqn:E.
  - apply concat_pages_snoc.
  - rewrite (H E), app_nil_r. reflexivity.
Qed.

(** C3: the pages lists of the chunks, concatenated in chunk order, are
    the page numbers of the OK results in their order: no page is
    omitted and none appears twice. *)
Theorem createChunks_pages_cover :
  forall (results : list TranslationResult) (maxChars : Z),
    concat (map pages (createChunks results maxChars))
    = okPageNumbers results.
Proof.
  intros results maxChars. unfold createChunks.
  assert (H0 : openChunkConsistent chunkerInit) by (intros _; reflexivity).
  destruct (chunker_fold maxChars results H0) as [H1 H2].
  rewrite (chunkerFinish_pages H1), H2. reflexivity.
Qed.

Lemma chunkStep_bounded (maxChars : Z) (st : ChunkerState)
      (r : TranslationResult) :
  chunkerBounded maxChars st ->
  chunkerBounded maxChars (chunkStep maxChars st r).
Proof.
  intros (Hc & Hcur & Hcons).
  destruct (isOK (status r)) eqn:Ok.
  2:{ rewrite chunkStep_skip by exact Ok. repeat split; assumption. }
  split; [|split]; [| |apply chunkStep_consistent; exact Hcons].
  - unfold chunkStep. rewrite Ok. cbn [negb]. cbv zeta.
    match goal with
    | |- context [if ?c then (_, _) else (_, _)] => destruct c
    end; cbn [fst chunks]; [|exact Hc].
    apply Forall_app. split; [exact Hc|]. constructor; [exact Hcur|constructor].
  - unfold chunkStep. rewrite Ok. cbn [negb]. cbv zeta.
    match goal with
    | |- context [if ?c then (_, _) else (_, _)] => destruct c eqn:Push
    end; cbn [snd currentChunk]; unfold nearLimit; cbn [pages text].
    + simpl. lia.
    + rewrite !length_app. cbn [List.length nl]. intros Hp.
      apply andb_false_iff in Push. destruct Push as [Push | Push].
      * apply orb_false_iff in Push. destruct Push as [_ Push].
        rewrite Z.gtb_ltb, Z.ltb_ge in Push. lia.
      * rewrite (Hcons Push) in Hp. simpl in Hp. lia.
Qed.

Lemma chunker_fold_bounded (maxChars : Z) (results : list TranslationResult) :
  forall st,
    chunkerBounded maxChars st ->
    chunkerBounded maxChars (fold_left (chunkStep maxChars) results st).
Proof.
  induction results as [|r results IH]; intros st H; simpl; [exact H|].
  apply IH, chunkStep_bounded, H.
Qed.

Theorem createChunks_near_limit :
  forall (results : list TranslationResult) (maxChars : Z) (c : ChunkData),
    In c (createChunks results maxChars) ->
    2 <= List.length (pages c) ->
    (Z.of_nat (List.length (text c)) <= maxChars + 2)%Z.
Proof.
  intros results maxChars c Hin.
  assert (H0 : chunkerBounded maxChars chunkerInit).
  { repeat split; [constructor | intros H; simpl in H; lia]. }
  destruct (chunker_fold_bounded results H0) as (Hc & Hcur & _).
  unfold createChunks, chunkerFinish in Hin.
  rewrite Forall_forall in Hc.
  destruct (truthy _) in Hin.
  - apply in_app_or in Hin. destruct Hin as [Hin | [<- | []]].
    + exact (Hc c Hin).
    + exact Hcur.
  - exact (Hc c Hin).
Qed.

(** C2 at the failing input: two OK pages of 4999 characters each share
    one chunk of two pages whose text has 10002 characters, above the
    threshold of 10000. *)
Theorem createChunks_two_pages_exceed :
  createChunks twoHalfPages defaultMaxChars
  = [ {| title := js "תוכן כללי";
         text := repeat 1488%N 4999 ++ nl ++ nl
                   ++ repeat 1488%N 4999 ++ nl ++ nl;
         pages := [1; 2] |} ]
  /\ (Z.of_nat (List.length (repeat 1488%N 4999 ++ nl ++ nl
                               ++ repeat 1488%N 4999 ++ nl ++ nl))
      = defaultMaxChars + 2)%Z.
Proof. repeat split; vm_compute; reflexivity. Qed.

(* ================================================================== *)
(** ** Chapter context *)
(* ================================================================== *)

(** C1 at the failing input: page 1 has chapter "A", page 2 no title,
    page 3 section "B"; the context computed for page 4 is "B", where
    the documented scan gives "A". *)
Theorem chapterContext_page4 :
  pageContexts threePages 3
  = inr (js "third page body", js "B")
  /\ documentedChapterContext threePages 3 = js "A"
  /\ js "B" <> js "A".
Proof. repeat split; vm_compute; congruence. Qed.

(* ================================================================== *)
(** ** The document assembler *)
(* ================================================================== *)

Lemma assembleStep_skip (st : AssemblerState) (r : TranslationResult) :
  notOK r -> assembleStep st r = st.
Proof. intros H. unfold assembleStep. rewrite H. reflexivity. Qed.


Lemma assembleStep_ok (st : AssemblerState) (r : TranslationResult) :
  isOK (status r) = true ->
  assembleStep st r
  = addTranslation r (addSectionHeading r (addChapterHeading r st)).
Proof. intros H. unfold assembleStep. rewrite H. reflexivity. Qed.









(* ================================================================== *)
(** ** Loops *)
(* ================================================================== *)

Lemma forEach_app {S A : Type} (l1 l2 : list A) (body : A -> M S unit) :
  forall s,
    forEach (l1 ++ l2) body s
    = match forEach l1 body s with
      | (Ret _, s1) => forEach l2 body s1
      | (Throw e, s1) => (Throw e, s1)
      end.
Proof.
  induction l1 as [|x l1 IH]; intros s; simpl; [reflexivity|].
  unfold bind. destruct (body x s) as [[u|e] s1]; [apply IH|reflexivity].
Qed.

Lemma forEach_snoc {S A : Type} (l : list A) (x : A) (body : A -> M S unit)
      (s s1 s2 : S) :
  forEach l body s = (Ret tt, s1) ->
  body x s1 = (Ret tt, s2) ->
  forEach (l ++ [x]) body s = (Ret tt, s2).
Proof.
  intros H1 H2. rewrite forEach_app, H1. simpl. unfold bind.
  rewrite H2. reflexivity.
Qed.

(* ================================================================== *)
(** ** [processPage] *)
(* ================================================================== *)

Section PipelineFacts.

Variable env : Collaborators.

Variables (imagePath : jsstring) (pageNo : nat).
Variables (previousContext chapterContext : jsstring).

(** An attempt returns a validated [OK] result or throws; either way
    it leaves the events of one attempt. *)
Lemma attempt_run (retries : nat) (w : World) :
  exists o evs,
    attempt env imagePath pageNo previousContext chapterContext retries w
    = (o, w ++ evs)
    /\ attemptEvents imagePath evs
    /\ (forall r, o = Ret r ->
           pageOutcome (toLowerCase env) pageNo r /\ status r = OK).
Proof.
  unfold attempt, bind, encodeFileToBase64, completionsCreate.
  destruct (readFile env w imagePath) as [e | b] eqn:R; cbn [ofReply].
  { exists (Throw e), [EvReadFile imagePath (inl e)].
    split; [reflexivity|]. split; [left; eauto | discriminate]. }
  set (w1 := w ++ [EvReadFile imagePath (inr b)]).
  set (prompt := PagePrompt pageNo chapterContext previousContext
                            imagePath b).
  assert (W : forall reply,
             w1 ++ [EvCreate prompt reply]
             = w ++ [EvReadFile imagePath (inr b); EvCreate prompt reply]).
  { intros reply. unfold w1. rewrite <- app_assoc. reflexivity. }
  assert (A : forall reply,
             attemptEvents imagePath
               [EvReadFile imagePath (inr b); EvCreate prompt reply]).
  { intros reply. right. eauto. }
  destruct (chatCreate env w1 prompt) as [e | content]; cbn [ofReply].
  { eexists (Throw e), _. split; [rewrite W; reflexivity|].
    split; [apply A | discriminate]. }
  destruct (truthy (orEmpty content)); cbn [negb].
  2:{ eexists (Throw _), _. unfold throw.
      split; [rewrite W; reflexivity|]. split; [apply A | discriminate]. }
  destruct (parseResponse env (orEmpty content)) as [parsed|].
  2:{ eexists (Throw _), _. unfold throw.
      split; [rewrite W; reflexivity|]. split; [apply A | discriminate]. }
  destruct (isValidTranslation (toLowerCase env) (r_translation parsed)
                               (r_summary parsed)) eqn:V; cbn [negb].
  2:{ eexists (Throw _), _. unfold throw.
      split; [rewrite W; reflexivity|]. split; [apply A | discriminate]. }
  eexists (Ret _), _. unfold ret.
  split; [rewrite W; reflexivity|]. split; [apply A|].
  intros r E. injection E as <-. unfold pageOutcome. cbn. auto.
Qed.

(** The retry loop always returns, and returns a page outcome. *)
Lemma retryLoop_returns (maxRetries : nat) :
  forall (remaining retries : nat) (w : World),
  exists r w',
    retryLoop env imagePath pageNo previousContext chapterContext
               maxRetries remaining retries w = (Ret r, w')
    /\ pageOutcome (toLowerCase env) pageNo r.
Proof.
  induction remaining as [|remaining IH]; intros retries w; simpl.
  - eexists _, _. split; [reflexivity|]. unfold pageOutcome. cbn. auto.
  - unfold tryCatch.
    destruct (attempt_run retries w) as ([r | e] & evs & -> & _ & H).
    + exists r, (w ++ evs). split; [reflexivity|].
      apply (H r eq_refl).
    + unfold bind.
      destruct (retries + 1 <=? maxRetries).
      * unfold delay. apply IH.
      * unfold ret. apply IH.
Qed.

Lemma processPage_returns (maxRetries : nat) (w : World) :
  exists r w',
    processPage env imagePath pageNo previousContext chapterContext
                 maxRetries w = (Ret r, w')
    /\ pageOutcome (toLowerCase env) pageNo r.
Proof.
  unfold processPage, pageBoundary, tryCatch.
  destruct (retryLoop_returns maxRetries (S maxRetries) 0 w)
    as (r & w' & -> & H).
  eauto.
Qed.

Lemma extends_refl (w : World) : extends w w.
Proof. exists []. rewrite app_nil_r. reflexivity. Qed.

Lemma extends_app (w h t : World) : extends w h -> extends w (h ++ t).
Proof. intros (tail & ->). exists (tail ++ t). apply eq_sym, app_assoc. Qed.

Lemma attempt_fails (retries : nat) (w0 w : World) :
  noValidAnswer env imagePath pageNo previousContext chapterContext w0 ->
  extends w0 w ->
  exists e evs,
    attempt env imagePath pageNo previousContext chapterContext retries w
    = (Throw e, w ++ evs)
    /\ attemptEvents imagePath evs.
Proof.
  intros H X.
  destruct (attempt_run retries w) as ([r | e] & evs & E & A & _);
    [|eauto].
  exfalso. revert E.
  unfold attempt, bind, encodeFileToBase64, completionsCreate.
  destruct (readFile env w imagePath) as [e | b]; cbn [ofReply];
    [discriminate|].
  destruct (chatCreate _ _ _) as [e | content] eqn:C; cbn [ofReply];
    [discriminate|].
  destruct (truthy (orEmpty content)); cbn [negb]; [|discriminate].
  destruct (parseResponse env (orEmpty content)) as [parsed|] eqn:P;
    [|discriminate].
  rewrite (H _ _ _ _ (extends_app _ X) C P). discriminate.
Qed.

Lemma retryLoop_exhausts (maxRetries : nat) (w0 : World) :
  noValidAnswer env imagePath pageNo previousContext chapterContext w0 ->
  forall (remaining retries : nat) (w : World),
    extends w0 w ->
    remaining + retries = S maxRetries ->
    exists blocks,
      List.length blocks = remaining
      /\ Forall (attemptEvents imagePath) blocks
      /\ retryLoop env imagePath pageNo previousContext chapterContext
                    maxRetries remaining retries w
         = (Ret (exhaustedResult pageNo maxRetries),
            w ++ joinWith [EvDelay 3000] blocks).
Proof.
  intros H. induction remaining as [|remaining IH]; intros retries w X Hv.
  - exists []. simpl. rewrite app_nil_r. auto.
  - simpl. unfold tryCatch.
    destruct (attempt_fails retries H X) as (e & evs & -> & A).
    unfold bind.
    destruct remaining as [|remaining].
    + replace (retries + 1 <=? maxRetries) with false
        by (symmetry; apply Nat.leb_gt; lia).
      unfold ret. simpl. exists [evs]. simpl. auto.
    + replace (retries + 1 <=? maxRetries) with true
        by (symmetry; apply Nat.leb_le; lia).
      unfold delay.
      destruct (IH (retries + 1) ((w ++ evs) ++ [EvDelay 3000]))
        as (blocks & L & F & E);
        [apply extends_app, extends_app, X | lia |].
      exists (evs :: blocks). split; [simpl; lia|].
      split; [constructor; assumption|].
      rewrite E. destruct blocks as [|b blocks]; [discriminate L|].
      cbn [joinWith]. rewrite <- !app_assoc. reflexivity.
Qed.

End PipelineFacts.

(* ================================================================== *)
(** ** The page loop of [main] *)
(* ================================================================== *)

Lemma chapterScan_defined (results : list TranslationResult) :
  forall (j1 : nat) (context : jsstring),
    j1 <= List.length results ->
    exists c, chapterScan results j1 context = inr c.
Proof.
  induction j1 as [|j IH]; intros context Hj; simpl; [eauto|].
  destruct (nth_error results j) as [rj|] eqn:E.
  2:{ apply nth_error_None in E. lia. }
  destruct (truthy (orEmpty (chapterTitle rj)) && negb (truthy context));
    [eauto|].
  destruct (truthy (orEmpty (sectionTitle rj)) && negb _);
    apply IH; lia.
Qed.

(** On results whose titles are strings the context computation
    returns, and the previous context is the tail of the preceding
    translation or nothing. *)
Lemma pageContexts_defined (results : list TranslationResult) (i : nat) :
  exists previousContext chapterContext,
    pageContexts results i = inr (previousContext, chapterContext)
    /\ previousContext
       = match (if 0 <? i then nth_error results (i - 1) else None) with
         | Some prev =>
           if isOK (status prev)
           then sliceLast 200 (translation prev) else []
         | None => []
         end.
Proof.
  unfold pageContexts.
  destruct (0 <? i) eqn:Pos; [|eauto].
  destruct (nth_error results (i - 1)) as [prev|] eqn:E; [|eauto].
  destruct (isOK (status prev)); [|eauto].
  assert (Hi : i <= List.length results).
  { apply Nat.ltb_lt in Pos.
    assert (i - 1 < List.length results)
      by (apply nth_error_Some; congruence).
    lia. }
  destruct (chapterScan_defined results [] Hi) as (c & ->). eauto.
Qed.

Section SequencerFacts.

Variable env : Collaborators.
Variable imagePaths : list jsstring.

(** One iteration: the contexts are computed from the results so far,
    [processPage] is called with them, and its result is pushed. *)
Lemma translatePage_run (i : nat) (s : MainState) :
  exists previousContext chapterContext r w',
    pageContexts (results s) i = inr (previousContext, chapterContext)
    /\ processPage env (nth i imagePaths []) (i + 1)
                    previousContext chapterContext 3 (world s)
       = (Ret r, w')
    /\ pageOutcome (toLowerCase env) (i + 1) r
    /\ translatePage env imagePaths i s
       = (Ret tt,
          {| results := results s ++ [r];
             chunkSummaries := chunkSummaries s;
             world := if i <? List.length imagePaths - 1
                      then w' ++ [EvDelay 1000] else w' |}).
Proof.
  destruct (pageContexts_defined (results s) i) as (pc & cc & E & _).
  destruct (processPage_returns env (nth i imagePaths []) (i + 1) pc cc 3
              (world s)) as (r & w' & P & O).
  exists pc, cc, r, w'. split; [exact E|]. split; [exact P|].
  split; [exact O|].
  unfold translatePage, tryCatch, bind, getResults.
  rewrite E. cbn [ofReply fst snd]. unfold liftWorld at 1. rewrite P.
  unfold pushResult. cbn [results chunkSummaries world].
  destruct (i <? List.length imagePaths - 1); reflexivity.
Qed.

Lemma pageLoop_prefix (w : World) (k : nat) :
  forEach (seq 0 k) (translatePage env imagePaths) (mainInit w)
  = (Ret tt, pageLoopState env imagePaths w k)
  /\ map pageNumber (results (pageLoopState env imagePaths w k)) = seq 1 k
  /\ Forall translated (results (pageLoopState env imagePaths w k)).
Proof.
  induction k as [|k (E & N & T)].
  - repeat split. constructor.
  - destruct (translatePage_run k (pageLoopState env imagePaths w k))
      as (pc & cc & r & w' & _ & _ & (Pn & Os) & R).
    assert (E' : forEach (seq 0 (S k)) (translatePage env imagePaths)
                         (mainInit w)
                 = (Ret tt,
                    {| results :=
                         results (pageLoopState env imagePaths w k) ++ [r];
                       chunkSummaries :=
                         chunkSummaries (pageLoopState env imagePaths w k);
                       world := if k <? List.length imagePaths - 1
                                then w' ++ [EvDelay 1000] else w' |})).
    { rewrite seq_S. eapply forEach_snoc; [exact E | exact R]. }
    unfold pageLoopState at 1 2 3. rewrite E'. cbn [snd results].
    split; [reflexivity|]. split.
    + rewrite map_app, N, seq_S. simpl. rewrite Pn.
      replace (k + 1) with (1 + k) by lia. reflexivity.
    + apply Forall_app. split; [exact T|].
      constructor; [|constructor].
      intros Ok. destruct Os as [[_ V] | F]; [|congruence].
      eapply isValidTranslation_true_nonempty; exact V.
Qed.

Lemma pageLoopState_length (w : World) (k : nat) :
  List.length (results (pageLoopState env imagePaths w k)) = k.
Proof.
  destruct (pageLoop_prefix w k) as (_ & N & _).
  rewrite <- (length_map pageNumber), N. apply length_seq.
Qed.

Lemma pageLoopState_step (w : World) (k : nat) :
  translatePage env imagePaths k (pageLoopState env imagePaths w k)
  = (Ret tt, pageLoopState env imagePaths w (S k)).
Proof.
  destruct (pageLoop_prefix w k) as (E & _).
  destruct (pageLoop_prefix w (S k)) as (E' & _).
  rewrite seq_S, forEach_app, E in E'. simpl in E'. unfold bind in E'.
  destruct (translatePage_run k (pageLoopState env imagePaths w k))
    as (pc & cc & r & w' & _ & _ & _ & R).
  rewrite R in E' |- *. unfold ret in E'. exact E'.
Qed.

End SequencerFacts.

(* ================================================================== *)
(** ** [processPage]: exhaustion and totality *)
(* ================================================================== *)

(** C7: when no attempt made from the current history on passes
    validation, [processPage] returns after
    exactly [maxRetries + 1] attempts, separated by delays of 3000 ms,
    the FAILED result with the Hebrew placeholder naming the page and the
    number of attempts, the English diagnostic summary and empty chapter
    and section titles. *)
Theorem processPage_exhausts_retries :
  forall (env : Collaborators) (imagePath : jsstring) (pageNo : nat)
         (previousContext chapterContext : jsstring)
         (maxRetries : nat) (w : World),
    noValidAnswer env imagePath pageNo previousContext chapterContext w ->
    exists r w' attempts,
      processPage env imagePath pageNo previousContext chapterContext
                  maxRetries w = (Ret r, w')
      /\ List.length attempts = maxRetries + 1
      /\ Forall (attemptEvents imagePath) attempts
      /\ w' = w ++ joinWith [EvDelay 3000] attempts
      /\ pageNumber r = pageNo
      /\ status r = FAILED
      /\ translation r
         = js "שגיאה בעיבוד דף " ++ decimal pageNo ++ js " - "
              ++ decimal (maxRetries + 1) ++ js " ניסיונות נכשלו"
      /\ summary r
         = js "FAILED - " ++ decimal (maxRetries + 1)
              ++ js " attempts - manual review needed"
      /\ chapterTitle r = Some []
      /\ sectionTitle r = Some []
      /\ retryCount r = Some (maxRetries + 1).
Proof.
  intros env imagePath pageNo pc cc maxRetries w H.
  destruct (@retryLoop_exhausts env imagePath pageNo pc cc maxRetries w H
              (S maxRetries) 0 w (extends_refl w))
    as (attempts & L & F & E); [lia|].
  exists (exhaustedResult pageNo maxRetries),
         (w ++ joinWith [EvDelay 3000] attempts), attempts.
  unfold processPage, pageBoundary, tryCatch. rewrite E.
  split; [reflexivity|]. split; [lia|].
  repeat (split; [first [assumption | reflexivity]|]). reflexivity.
Qed.

(** C10: [processPage] always returns a result and never throws; the
    status of the result is OK or FAILED, never RETRY; and the outer
    boundary turns whatever its body throws into the FAILED result with
    [retryCount = 0]. *)
Theorem processPage_total :
  forall (env : Collaborators) (imagePath : jsstring) (pageNo : nat)
         (previousContext chapterContext : jsstring)
         (maxRetries : nat) (w : World),
    (exists r w',
        processPage env imagePath pageNo previousContext chapterContext
                    maxRetries w = (Ret r, w')
        /\ pageNumber r = pageNo
        /\ (status r = OK \/ status r = FAILED)
        /\ status r <> RETRY)
    /\ processPage env imagePath pageNo previousContext chapterContext
                   maxRetries
       = pageBoundary pageNo
           (retryLoop env imagePath pageNo previousContext chapterContext
                      maxRetries (S maxRetries) 0)
    /\ (forall (body : M World TranslationResult) (w0 w1 : World)
               (e : Error),
           body w0 = (Throw e, w1) ->
           exists r,
             pageBoundary pageNo body w0 = (Ret r, w1)
             /\ pageNumber r = pageNo
             /\ status r = FAILED
             /\ retryCount r = Some 0).
Proof.
  intros env imagePath pageNo pc cc maxRetries w.
  split; [|split].
  - destruct (processPage_returns env imagePath pageNo pc cc maxRetries w)
      as (r & w' & E & Pn & Os).
    exists r, w'. split; [exact E|]. split; [exact Pn|].
    destruct Os as [[Ok _] | F]; rewrite ?Ok, ?F; split; auto; discriminate.
  - reflexivity.
  - intros body w0 w1 e B. exists (criticalResult pageNo).
    unfold pageBoundary, tryCatch. rewrite B. unfold ret. auto.
Qed.

(* ================================================================== *)
(** ** The page loop: numbering and previous context *)
(* ================================================================== *)

(** C4: over N page images the page loop returns with exactly N results
    whose page numbers are 1..N in order, whatever the collaborators
    answer: a failed page sits at its own index. *)
Theorem translatePages_page_numbers :
  forall (env : Collaborators) (imagePaths : list jsstring) (w : World),
  exists s,
    translatePages env imagePaths (mainInit w) = (Ret tt, s)
    /\ List.length (results s) = List.length imagePaths
    /\ map pageNumber (results s) = seq 1 (List.length imagePaths)
    /\ (forall i r, nth_error (results s) i = Some r -> pageNumber r = i + 1)
    /\ (forall r, In r (results s) -> status r = OK \/ status r = FAILED).
Proof.
  intros env imagePaths w.
  exists (pageLoopState env imagePaths w (List.length imagePaths)).
  destruct (pageLoop_prefix env imagePaths w (List.length imagePaths))
    as (E & N & T).
  split; [exact E|]. split; [apply pageLoopState_length|].
  split; [exact N|]. split.
  - intros i r Hi.
    assert (Hm : nth_error
                   (map pageNumber
                        (results (pageLoopState env imagePaths w
                                                (List.length imagePaths)))) i
                 = Some (pageNumber r))
      by (rewrite nth_error_map, Hi; reflexivity).
    rewrite N in Hm.
    assert (Hlt : i < List.length imagePaths).
    { assert (Hl : i < List.length (seq 1 (List.length imagePaths)))
        by (apply nth_error_Some; congruence).
      rewrite length_seq in Hl. exact Hl. }
    rewrite nth_error_seq in Hm.
    apply Nat.ltb_lt in Hlt. rewrite Hlt in Hm.
    injection Hm. lia.
  - generalize (List.length imagePaths) at 1. intros k.
    induction k as [|k IH]; intros r Hin; [destruct Hin|].
    destruct (translatePage_run env imagePaths k
                (pageLoopState env imagePaths w k))
      as (pc & cc & r' & w' & _ & _ & (_ & Os) & R).
    rewrite pageLoopState_step in R. injection R as R. rewrite R in Hin.
    cbn [results] in Hin. apply in_app_or in Hin.
    destruct Hin as [Hin | [<- | []]]; [apply IH; exact Hin|].
    destruct Os as [[Ok _] | F]; auto.
Qed.

(** C5: at every page index [i] whose contexts are computed, that is,
    whose scan for the chapter context has not thrown, the previous
    context handed to [processPage] is non-empty exactly when [i > 0]
    and the result at index [i - 1] is OK; it is then the last 200
    characters (all of them when there are fewer) of that translation,
    and it is empty when that result is FAILED.  [processPage] is then
    called with these contexts, and the result pushed for the page is
    the one that call returns. *)
Theorem previousContext_characterised :
  forall (env : Collaborators)
         (imagePaths : list jsstring) (w : World) (i : nat)
         (previousContext chapterContext : jsstring),
    i < List.length imagePaths ->
    pageContexts (results (pageLoopState env imagePaths w i)) i
    = inr (previousContext, chapterContext) ->
    exists (before after : MainState)
           (r : TranslationResult) (w' : World),
      before = pageLoopState env imagePaths w i
      /\ after = pageLoopState env imagePaths w (S i)
      /\ List.length (results before) = i
      /\ processPage env (nth i imagePaths []) (i + 1)
                     previousContext chapterContext 3 (world before)
         = (Ret r, w')
      /\ results after = results before ++ [r]
      /\ (previousContext <> [] <->
          0 < i /\ exists prev,
                     nth_error (results before) (i - 1) = Some prev
                     /\ status prev = OK)
      /\ (forall prev,
             0 < i ->
             nth_error (results before) (i - 1) = Some prev ->
             status prev = OK ->
             pageNumber prev = i
             /\ previousContext = sliceLast 200 (translation prev)
             /\ List.length previousContext <= 200
             /\ exists front, translation prev = front ++ previousContext)
      /\ (forall prev,
             nth_error (results before) (i - 1) = Some prev ->
             status prev = FAILED ->
             previousContext = []).
Proof.
  intros env imagePaths w i pc cc Hi Hctx.
  set (before := pageLoopState env imagePaths w i).
  fold before in Hctx.
  destruct (translatePage_run env imagePaths i before)
    as (pc0 & cc0 & r & w' & C & P & _ & R).
  rewrite Hctx in C. injection C as <- <-.
  destruct (pageContexts_defined (results before) i)
    as (pc' & cc' & C' & Hpc).
  rewrite Hctx in C'. injection C' as <- <-.
  destruct (pageLoop_prefix env imagePaths w i)
    as (_ & N & T). fold before in N, T.
  exists before, (pageLoopState env imagePaths w (S i)), r, w'.
  split; [reflexivity|]. split; [reflexivity|].
  split; [apply pageLoopState_length|].
  split; [exact P|]. split.
  { unfold before in R. rewrite pageLoopState_step in R.
    injection R as ->. reflexivity. }
  assert (Hprev : forall prev,
             0 < i -> nth_error (results before) (i - 1) = Some prev ->
             pc = if isOK (status prev)
                  then sliceLast 200 (translation prev) else []).
  { intros prev Pos E. apply Nat.ltb_lt in Pos.
    rewrite Pos, E in Hpc. exact Hpc. }
  split; [split|split].
  - intros Hne. destruct (0 <? i) eqn:Pos.
    2:{ rewrite Hpc in Hne. congruence. }
    apply Nat.ltb_lt in Pos. split; [exact Pos|].
    destruct (nth_error (results before) (i - 1)) as [prev|] eqn:E.
    2:{ cbv iota in Hpc. congruence. }
    exists prev. split; [reflexivity|].
    rewrite Hpc in Hne.
    destruct (status prev); simpl in Hne; congruence.
  - intros (Pos & prev & E & Ok).
    rewrite (Hprev prev Pos E), Ok. cbn [isOK].
    apply sliceLast_nonempty; [lia|].
    rewrite Forall_forall in T.
    apply (T prev); [eapply nth_error_In; exact E | exact Ok].
  - intros prev Pos E Ok. split.
    + assert (Hm : nth_error (map pageNumber (results before)) (i - 1)
                   = Some (pageNumber prev))
        by (rewrite nth_error_map, E; reflexivity).
      rewrite N, nth_error_seq in Hm.
      replace (i - 1 <? i) with true in Hm
        by (symmetry; apply Nat.ltb_lt; lia).
      injection Hm. lia.
    + rewrite (Hprev prev Pos E), Ok. cbn [isOK].
      split; [reflexivity|]. split; [apply sliceLast_length|].
      apply sliceLast_suffix.
  - intros prev E F. destruct (0 <? i) eqn:Pos.
    + apply Nat.ltb_lt in Pos. rewrite (Hprev prev Pos E), F. reflexivity.
    + rewrite Hpc. reflexivity.
Qed.

(* ================================================================== *)
(** ** The summary loop *)
(* ================================================================== *)

Section SummaryFacts.

Variable env : Collaborators.
Variable chunks : list ChunkData.

(** [summarizeChunk] makes one request and never throws. *)
Lemma summarizeChunk_run (chunk : ChunkData) (i n : nat) (w : World) :
  exists summary,
    summarizeChunk env chunk i n w
    = (Ret summary,
       w ++ [EvCreate (ChunkPrompt i n chunk)
                      (chatCreate env w (ChunkPrompt i n chunk))])
    /\ (forall e,
           chatCreate env w (ChunkPrompt i n chunk) = inl e ->
           summary = summaryError chunk).
Proof.
  unfold summarizeChunk, tryCatch, bind, completionsCreate.
  destruct (chatCreate env w (ChunkPrompt i n chunk)) as [e | content];
    cbn [ofReply]; unfold ret.
  - exists (summaryError chunk). auto.
  - eexists. split; [reflexivity | discriminate].
Qed.

Lemma summarizeAt_run (i : nat) (s : MainState) :
  exists summary,
    summarizeAt env chunks i s
    = (Ret tt,
       {| results := results s;
          chunkSummaries := chunkSummaries s ++ [summary];
          world := world s
                     ++ EvCreate (ChunkPrompt i (List.length chunks)
                         (nth i chunks emptyChunk))
                                 (chatCreate env (world s)
                                     (ChunkPrompt i (List.length chunks)
                                         (nth i chunks emptyChunk)))
                     :: (if i <? (List.length chunks) - 1
                         then [EvDelay 1000] else [])
       |})
    /\ (forall e,
           chatCreate env (world s) (ChunkPrompt i (List.length chunks)
               (nth i chunks emptyChunk)) = inl e ->
           summary = summaryError (nth i chunks emptyChunk)).
Proof.
  destruct (summarizeChunk_run
      (nth i chunks emptyChunk) i (List.length chunks) (world s))
    as (summary & E & F).
  exists summary. split; [|exact F].
  unfold summarizeAt, bind, liftWorld at 1. rewrite E.
  unfold pushSummary. cbn [results chunkSummaries world].
  destruct (i <? (List.length chunks) - 1).
  - unfold liftWorld, delay. cbn [results chunkSummaries world].
    rewrite <- app_assoc. reflexivity.
  - unfold ret. reflexivity.
Qed.

Lemma summaryLoop_prefix (s0 : MainState) (k : nat) :
  exists new,
    forEach (seq 0 k) (summarizeAt env chunks) s0
    = (Ret tt, summaryLoopState env chunks s0 k)
    /\ chunkSummaries (summaryLoopState env chunks s0 k)
       = chunkSummaries s0 ++ new
    /\ List.length new = k
    /\ (forall i e,
           i < k ->
           chatCreate env (world (summaryLoopState env chunks s0 i))
                      (ChunkPrompt i (List.length chunks)
                          (nth i chunks emptyChunk)) = inl e ->
           nth_error new i = Some (summaryError (nth i chunks emptyChunk))).
Proof.
  induction k as [|k (new & E & C & L & F)].
  - exists []. simpl. rewrite app_nil_r.
    repeat split. intros i e Hi. lia.
  - destruct (summarizeAt_run k (summaryLoopState env chunks s0 k))
      as (summary & R & Fk).
    assert (E' : forEach (seq 0 (S k)) (summarizeAt env chunks) s0
                 = (Ret tt, summaryLoopState env chunks s0 (S k))).
    { unfold summaryLoopState at 1. rewrite seq_S.
      erewrite forEach_snoc; [reflexivity | exact E | exact R]. }
    exists (new ++ [summary]). split; [exact E'|].
    assert (S' : summaryLoopState env chunks s0 (S k)
                 = snd (summarizeAt env chunks k
                          (summaryLoopState env chunks s0 k))).
    { unfold summaryLoopState at 1. rewrite seq_S.
      erewrite forEach_snoc; [rewrite R; reflexivity | exact E | exact R]. }
    split; [|split].
    + rewrite S', R. cbn [snd chunkSummaries]. rewrite C, app_assoc.
      reflexivity.
    + rewrite length_app. simpl. lia.
    + intros i e Hi Hf.
      destruct (Nat.eq_dec i k) as [-> | Hne].
      * rewrite nth_error_app2 by lia.
        rewrite L, Nat.sub_diag. simpl. f_equal. eapply Fk. exact Hf.
      * rewrite nth_error_app1 by lia. eapply F; [lia | exact Hf].
Qed.

Lemma summaryLoopState_world (s0 : MainState) (k : nat) :
  world (summaryLoopState env chunks s0 (S k))
  = world (summaryLoopState env chunks s0 k)
      ++ EvCreate (ChunkPrompt k (List.length chunks) (nth k chunks emptyChunk))
           (chatCreate env (world (summaryLoopState env chunks s0 k))
                       (ChunkPrompt k (List.length chunks)
                           (nth k chunks emptyChunk)))
      :: (if k <? (List.length chunks) - 1 then [EvDelay 1000] else []).
Proof.
  destruct (summaryLoop_prefix s0 k) as (new & E & _).
  destruct (summarizeAt_run k (summaryLoopState env chunks s0 k))
    as (summary & R & _).
  pose proof (forEach_snoc _ _ _ _ E R) as E'.
  rewrite <- seq_S in E'.
  unfold summaryLoopState at 1. rewrite E'. reflexivity.
Qed.

End SummaryFacts.

(** C9: the summary loop returns with one summary per chunk, in chunk
    order, whatever the requests do; each chunk gets a single request,
    and when that request throws the summary of the chunk is the fixed
    Hebrew error string followed by the chunk's title. *)
Theorem summarizeChunks_isolates_failures :
  forall (env : Collaborators)
         (chunks : list ChunkData) (s0 : MainState),
  exists s' new,
    summarizeChunks env chunks s0 = (Ret tt, s')
    /\ s' = summaryLoopState env chunks s0 (List.length chunks)
    /\ chunkSummaries s' = chunkSummaries s0 ++ new
    /\ List.length new = List.length chunks
    /\ (forall i chunk,
           nth_error chunks i = Some chunk ->
           world (summaryLoopState env chunks s0 (S i))
           = world (summaryLoopState env chunks s0 i)
               ++ EvCreate (ChunkPrompt i (List.length chunks) chunk)
                    (chatCreate env (world (summaryLoopState env chunks s0 i))
                       (ChunkPrompt i (List.length chunks) chunk))
               :: (if i <? List.length chunks - 1
                   then [EvDelay 1000] else []))
    /\ (forall i chunk e,
           nth_error chunks i = Some chunk ->
           chatCreate env (world (summaryLoopState env chunks s0 i))
                      (ChunkPrompt i (List.length chunks) chunk) = inl e ->
           nth_error new i = Some (js "שגיאה בסיכום " ++ title chunk)).
Proof.
  intros env chunks s0.
  destruct (summaryLoop_prefix env chunks s0 (List.length chunks))
    as (new & E & C & L & F).
  exists (summaryLoopState env chunks s0 (List.length chunks)), new.
  split; [exact E|]. split; [reflexivity|].
  split; [exact C|]. split; [exact L|]. split.
  - intros i chunk Hi.
    rewrite summaryLoopState_world.
    rewrite (nth_error_nth _ _ emptyChunk Hi). reflexivity.
  - intros i chunk e Hi Hf.
    assert (Hlt : i < List.length chunks)
      by (apply nth_error_Some; congruence).
    rewrite <- (nth_error_nth _ _ emptyChunk Hi) in Hf |- *.
    exact (F i e Hlt Hf).
Qed.

(* ================================================================== *)
(** ** Concrete runs *)
(* ================================================================== *)

(** Two attempts with a too-short translation: read, request, the delay
    of 3000 ms, read, request, and the FAILED result. *)
Example processPage_short_answers_run :
  processPage demoShort
              (js "temp_pages/page_7.png") 7 [] [] 1 []
  = (Ret (exhaustedResult 7 1),
     [ EvReadFile (js "temp_pages/page_7.png") (inr (js "iVBORw0KGgo="));
       EvCreate (PagePrompt 7 [] [] (js "temp_pages/page_7.png")
                            (js "iVBORw0KGgo="))
                (inr (Some (js "{ }")));
       EvDelay 3000;
       EvReadFile (js "temp_pages/page_7.png") (inr (js "iVBORw0KGgo="));
       EvCreate (PagePrompt 7 [] [] (js "temp_pages/page_7.png")
                            (js "iVBORw0KGgo="))
                (inr (Some (js "{ }"))) ]).
Proof. vm_compute. reflexivity. Qed.

(** A good first page: the second page is given the whole translation of
    the first (it has fewer than 200 characters) and its chapter. *)
Example pageContexts_second_page :
  pageContexts
    (results (pageLoopState demoGood demoPaths [] 1)) 1
  = inr (js "תרגום מלא של העמוד הנוכחי", js "פרק 1").
Proof. vm_compute. reflexivity. Qed.

(** A failed page is left out of the chunks, and a new section opens a
    new chunk with the combined title. *)
Example createChunks_title_change :
  map (fun c => (title c, pages c))
      (createChunks
         [ okPage 1 (js "body of page one") (js "A") [];
           failedPage 2;
           okPage 3 (js "body of page three") [] [];
           okPage 4 (js "body of page four") [] (js "S") ]
         defaultMaxChars)
  = [ (js "A", [1; 3]); (js "A > S", [4]) ].
Proof. vm_compute. reflexivity. Qed.

(** Chapter on page 1, a section on page 2 that continues on page 3: one
    chapter heading, one section heading, the three translations. *)
Example assemble_three_pages :
  translationText
    (assemble [ okPage 1 (repeat 65%N 50) (js "פרק 1") [];
                okPage 2 (repeat 66%N 50) [] (js "מבוא");
                okPage 3 (repeat 67%N 50) [] (js "מבוא") ])
  = chapterHeading (js "פרק 1") ++ repeat 65%N 50 ++ nl ++ nl
      ++ sectionHeading (js "מבוא") ++ repeat 66%N 50 ++ nl ++ nl
      ++ repeat 67%N 50 ++ nl ++ nl.
Proof. vm_compute. reflexivity. Qed.

(** Both requests rejected: two error summaries, one delay between the
    two requests. *)
Example summarizeChunks_all_rejected :
  summarizeChunks demoFailing demoChunks (mainInit [])
  = (Ret tt,
     {| results := [];
        chunkSummaries := [ js "שגיאה בסיכום פרק 1"; js "שגיאה בסיכום פרק 2" ];
        world :=
          [ EvCreate (ChunkPrompt 0 2 (nth 0 demoChunks emptyChunk))
                     (inl (MkError (js "429 rate limit")));
            EvDelay 1000;
            EvCreate (ChunkPrompt 1 2 (nth 1 demoChunks emptyChunk))
                     (inl (MkError (js "429 rate limit"))) ] |}).
Proof. vm_compute. reflexivity. Qed.

(** With a FAILED predecessor no context is passed, whatever came
    before. *)
Example pageContexts_after_failure :
  pageContexts [ okPage 1 (js "body of page one") (js "A") [];
                 failedPage 2 ] 2
  = inr ([], []).
Proof. vm_compute. reflexivity. Qed.

(** C7 at a model that always answers with a three-character
    translation, with three retries. *)
Lemma processPage_exhausts_retries_witness :
  noValidAnswer demoShort
                (js "temp_pages/page_7.png") 7 [] [] []
  /\ exists r w',
       processPage demoShort
                   (js "temp_pages/page_7.png") 7 [] [] 3 [] = (Ret r, w')
       /\ status r = FAILED
       /\ retryCount r = Some 4.
Proof.
  assert (H : noValidAnswer demoShort
                (js "temp_pages/page_7.png") 7 [] [] []).
  { intros h b content parsed _ _ P. injection P as <-. reflexivity. }
  split; [exact H|].
  destruct (processPage_exhausts_retries 3 H)
    as (r & w' & attempts & E & _ & _ & _ & _ & F & _ & _ & _ & _ & C).
  exists r, w'. split; [exact E|]. split; [exact F | exact C].
Defined.

(** C10 at a body that throws: the boundary returns the critical
    result and leaves the history as it was. *)
Lemma processPage_total_witness :
  exists r,
    pageBoundary 7 (throw (MkError (js "unexpected"))) [EvDelay 1000]
    = (Ret r, [EvDelay 1000])
    /\ pageNumber r = 7
    /\ status r = FAILED
    /\ retryCount r = Some 0.
Proof.
  apply (proj2 (proj2 (processPage_total demoGood
                         (js "temp_pages/page_7.png") 7 [] [] 3 []))
           (throw (MkError (js "unexpected"))) [EvDelay 1000] [EvDelay 1000]
           (MkError (js "unexpected"))).
  reflexivity.
Defined.

(** C5 at the second of two pages, after a good first page. *)
Lemma previousContext_characterised_witness :
  1 < List.length demoPaths
  /\ pageContexts (results (pageLoopState demoGood demoPaths [] 1)) 1
     = inr (js "תרגום מלא של העמוד הנוכחי", js "פרק 1")
  /\ exists before,
       before = pageLoopState demoGood demoPaths [] 1
       /\ (js "תרגום מלא של העמוד הנוכחי" <> [] <->
           0 < 1 /\ exists prev,
                      nth_error (results before) (1 - 1) = Some prev
                      /\ status prev = OK).
Proof.
  assert (H : 1 < List.length demoPaths) by (simpl; lia).
  assert (C : pageContexts (results (pageLoopState demoGood demoPaths [] 1))
                           1
              = inr (js "תרגום מלא של העמוד הנוכחי", js "פרק 1"))
    by (vm_compute; reflexivity).
  split; [exact H|]. split; [exact C|].
  destruct (@previousContext_characterised demoGood demoPaths [] 1 _ _ H C)
    as (before & after & r & w' & B & _ & _ & _ & _ & I & _).
  exists before. split; [exact B | exact I].
Defined.


(** C9 at two chunks whose requests are both rejected. *)
Lemma summarizeChunks_isolates_failures_witness :
  exists s' new,
    summarizeChunks demoFailing demoChunks (mainInit []) = (Ret tt, s')
    /\ chunkSummaries s' = new
    /\ nth_error new 0 = Some (js "שגיאה בסיכום " ++ js "פרק 1")
    /\ nth_error new 1 = Some (js "שגיאה בסיכום " ++ js "פרק 2").
Proof.
  destruct (summarizeChunks_isolates_failures demoFailing demoChunks
              (mainInit [])) as (s' & new & E & _ & C & _ & _ & F).
  exists s', new. split; [exact E|]. split; [exact C|]. split.
  - exact (F 0 _ (MkError (js "429 rate limit")) eq_refl eq_refl).
  - exact (F 1 _ (MkError (js "429 rate limit")) eq_refl eq_refl).
Defined.

(* ================================================================== *)
(** ** The chunker: segmentation, titles and sizes *)
(* ================================================================== *)

Lemma pagesText_nil_inv (seg : list TranslationResult) :
  pagesText seg = [] -> seg = [].
Proof.
  destruct seg as [|r seg]; [reflexivity|]. unfold pagesText. simpl.
  intros E. apply (f_equal (@List.length N)) in E.
  rewrite !length_app in E. simpl in E. lia.
Qed.

Lemma pagesText_snoc (seg : list TranslationResult) (r : TranslationResult) :
  pagesText (seg ++ [r]) = pagesText seg ++ translation r ++ nl ++ nl.
Proof.
  unfold pagesText. rewrite flat_map_app. simpl. rewrite app_nil_r.
  reflexivity.
Qed.

Lemma contentTitleOf_truthy (chapter section : jsstring) :
  truthy (contentTitleOf chapter section) = true.
Proof.
  unfold contentTitleOf.
  destruct chapter as [|c chapter]; destruct section as [|s section];
    reflexivity.
Qed.

(** What an iteration does with an OK page: it closes the open chunk or
    not, and puts the page into the open one. *)
Lemma chunkStep_ok (maxChars : Z) (st : ChunkerState)
      (r : TranslationResult) :
  isOK (status r) = true ->
  exists closes : bool,
    (closes = true -> truthy (text (currentChunk st)) = true)
    /\ (closes = false ->
        truthy (text (currentChunk st)) = true ->
        (truthy (title (currentChunk st)) = true ->
         title (currentChunk st)
         = contentTitleOf (chapterAfter (currentChapter st) r)
                          (sectionAfter (currentSection st) r))
        /\ (Z.of_nat (List.length (text (currentChunk st)))
            + Z.of_nat (List.length (translation r)) <= maxChars)%Z)
    /\ chunkStep maxChars st r
       = {| chunks := if closes then chunks st ++ [currentChunk st]
                      else chunks st;
            currentChunk :=
              {| title :=
                   if closes || negb (truthy (title (currentChunk st)))
                   then contentTitleOf (chapterAfter (currentChapter st) r)
                                       (sectionAfter (currentSection st) r)
                   else title (currentChunk st);
                 text := (if closes then [] else text (currentChunk st))
                           ++ translation r ++ nl ++ nl;
                 pages := (if closes then [] else pages (currentChunk st))
                            ++ [pageNumber r] |};
            currentChapter := chapterAfter (currentChapter st) r;
            currentSection := sectionAfter (currentSection st) r |}.
Proof.
  intros Ok. unfold chunkStep. rewrite Ok. cbn [negb]. cbv zeta.
  match goal with
  | |- context [if ?c then (_, _) else (_, _)] => destruct c eqn:Push
  end; cbn [fst snd title text pages].
  - exists true. apply andb_true_iff in Push. destruct Push as [_ T].
    split; [intros _; exact T|]. split; [discriminate|].
    cbn [orb]. rewrite contentTitleOf_truthy. reflexivity.
  - exists false. split; [discriminate|]. split.
    + intros _ T. rewrite T, andb_true_r in Push.
      apply orb_false_iff in Push. destruct Push as [P1 P2]. split.
      * intros Tt. rewrite Tt in P1. cbn [andb] in P1.
        apply negb_false_iff, str_eqb_eq in P1. exact P1.
      * rewrite Z.gtb_ltb, Z.ltb_ge in P2. exact P2.
    + cbn [orb]. reflexivity.
Qed.

Lemma chunkStep_segmented (maxChars : Z) (st : ChunkerState)
      (r : TranslationResult) (oks : list TranslationResult) :
  isOK (status r) = true ->
  segmented st oks -> segmented (chunkStep maxChars st r) (oks ++ [r]).
Proof.
  intros Ok (segs & open & Hc & Hf & Hp & Ht).
  destruct (@chunkStep_ok maxChars st r Ok) as ([|] & Hclose & _ & ->).
  - exists (segs ++ [open]), [r]. cbn [chunks currentChunk pages text].
    split; [rewrite concat_app; simpl; rewrite app_nil_r, Hc; reflexivity|].
    split; [|split; reflexivity || (unfold pagesText; simpl;
                                    rewrite app_nil_r; reflexivity)].
    apply Forall2_app; [exact Hf|]. constructor; [|constructor].
    split; [|split; assumption].
    intros ->. rewrite Ht in Hclose. specialize (Hclose eq_refl).
    discriminate.
  - exists segs, (open ++ [r]). cbn [chunks currentChunk pages text].
    split; [rewrite app_assoc, Hc; reflexivity|]. split; [exact Hf|].
    split; [rewrite map_app, Hp; reflexivity|].
    rewrite pagesText_snoc, Ht. reflexivity.
Qed.

Lemma chunker_fold_segmented (maxChars : Z)
      (results : list TranslationResult) :
  forall st oks,
    segmented st oks ->
    segmented (fold_left (chunkStep maxChars) results st)
              (oks ++ okResults results).
Proof.
  induction results as [|r results IH]; intros st oks H; simpl.
  - unfold okResults. simpl. rewrite app_nil_r. exact H.
  - unfold okResults. simpl. destruct (isOK (status r)) eqn:Ok.
    + change (r :: filter (fun r0 => isOK (status r0)) results)
        with ([r] ++ okResults results).
      rewrite app_assoc. apply IH, chunkStep_segmented; assumption.
    + rewrite chunkStep_skip by exact Ok. apply IH, H.
Qed.

Lemma createChunks_segments (results : list TranslationResult)
      (maxChars : Z) :
  exists segs,
    concat segs = okResults results
    /\ Forall2 chunkOf (createChunks results maxChars) segs.
Proof.
  assert (H0 : segmented chunkerInit []).
  { exists [], []. repeat split. constructor. }
  destruct (chunker_fold_segmented maxChars results H0)
    as (segs & open & Hc & Hf & Hp & Ht).
  unfold createChunks, chunkerFinish.
  destruct (truthy (text (currentChunk _))) eqn:T.
  - exists (segs ++ [open]). split.
    + rewrite concat_app. simpl. rewrite app_nil_r. exact Hc.
    + apply Forall2_app; [exact Hf|]. constructor; [|constructor].
      split; [|split; assumption].
      intros ->. rewrite Ht in T. discriminate.
  - exists segs. split; [|exact Hf].
    apply truthy_false_iff in T. rewrite T in Ht.
    rewrite (pagesText_nil_inv open (eq_sym Ht)), app_nil_r in Hc.
    exact Hc.
Qed.

(** X1: the chunks are a segmentation of the OK pages: cutting the list
    of OK results into consecutive non-empty runs gives the chunks, each
    holding the page numbers of its run and their translations, every
    one followed by a blank line. *)
Theorem createChunks_segmentation :
  forall (results : list TranslationResult) (maxChars : Z),
  exists segs,
    concat segs = okResults results
    /\ Forall2 chunkOf (createChunks results maxChars) segs.
Proof. intros results maxChars. apply createChunks_segments. Qed.

Lemma chunkStep_titles (maxChars : Z) (st : ChunkerState)
      (r : TranslationResult) :
  isOK (status r) = true ->
  openChunkTitled st ->
  openChunkTitled (chunkStep maxChars st r)
  /\ chunkTitles (chunks (chunkStep maxChars st r))
       ++ map (fun _ => title (currentChunk (chunkStep maxChars st r)))
              (pages (currentChunk (chunkStep maxChars st r)))
     = (chunkTitles (chunks st)
          ++ map (fun _ => title (currentChunk st))
                 (pages (currentChunk st)))
         ++ [contentTitleOf (chapterAfter (currentChapter st) r)
                            (sectionAfter (currentSection st) r)].
Proof.
  intros Ok (Hnil & Hcons).
  destruct (@chunkStep_ok maxChars st r Ok) as (closes & _ & Hkeep & ->).
  cbn [chunks currentChunk title text pages].
  split.
  - unfold openChunkTitled. cbn [currentChunk title text pages]. split.
    + intros E. destruct closes; destruct (pages (currentChunk st));
        discriminate E.
    + intros _. split.
      * destruct (closes || negb (truthy (title (currentChunk st))))
          eqn:B.
        -- apply truthy_true_iff, contentTitleOf_truthy.
        -- apply orb_false_iff in B. destruct B as [_ B].
           apply negb_false_iff in B. apply truthy_true_iff. exact B.
      * apply truthy_true_iff, truthy_app_nl.
  - destruct closes; cbn [orb].
    + unfold chunkTitles. rewrite flat_map_app. simpl.
      rewrite app_nil_r. reflexivity.
    + rewrite map_app, app_assoc. simpl.
      destruct (pages (currentChunk st)) as [|p ps] eqn:P.
      * destruct (Hnil eq_refl) as [-> _]. reflexivity.
      * assert (Hne : p :: ps <> []) by discriminate.
        destruct (Hcons Hne) as [Ht Hx].
        apply truthy_true_iff in Ht, Hx.
        destruct (Hkeep eq_refl Hx) as [Heq _].
        rewrite Ht. cbn [negb]. rewrite <- (Heq Ht). reflexivity.
Qed.

Lemma chunker_fold_titles (maxChars : Z) (results : list TranslationResult) :
  forall st,
    openChunkTitled st ->
    openChunkTitled (fold_left (chunkStep maxChars) results st)
    /\ chunkTitles (chunks (fold_left (chunkStep maxChars) results st))
         ++ map (fun _ => title (currentChunk
                                   (fold_left (chunkStep maxChars)
                                              results st)))
                (pages (currentChunk
                          (fold_left (chunkStep maxChars) results st)))
       = (chunkTitles (chunks st)
            ++ map (fun _ => title (currentChunk st))
                   (pages (currentChunk st)))
           ++ contentTitles (currentChapter st) (currentSection st) results.
Proof.
  induction results as [|r results IH]; intros st H; simpl.
  - rewrite app_nil_r. auto.
  - destruct (isOK (status r)) eqn:Ok.
    + destruct (@chunkStep_titles maxChars st r Ok H) as [H1 E1].
      destruct (IH _ H1) as [H2 E2]. split; [exact H2|].
      rewrite E2, E1.
      destruct (@chunkStep_ok maxChars st r Ok) as (closes & _ & _ & ->).
      cbn [currentChapter currentSection].
      rewrite <- app_assoc. reflexivity.
    + rewrite chunkStep_skip by exact Ok. apply IH, H.
Qed.

(** X2: every page sits in a chunk that carries the page's own content
    title: going through the chunks page by page, the chunk titles are
    the content titles that the chapter and section tracking gives the
    OK pages, in order. *)
Theorem createChunks_titles :
  forall (results : list TranslationResult) (maxChars : Z),
    chunkTitles (createChunks results maxChars)
    = contentTitles [] [] results.
Proof.
  intros results maxChars.
  assert (H0 : openChunkTitled chunkerInit).
  { split; [auto | intros H; exfalso; apply H; reflexivity]. }
  destruct (chunker_fold_titles maxChars results H0) as [[Hnil Hcons] E].
  unfold createChunks, chunkerFinish. simpl in E. rewrite <- E.
  destruct (truthy (text (currentChunk _))) eqn:T.
  - unfold chunkTitles. rewrite flat_map_app. simpl.
    rewrite app_nil_r. reflexivity.
  - apply truthy_false_iff in T.
    destruct (pages (currentChunk
                       (fold_left (chunkStep maxChars) results
                                  chunkerInit))) as [|p ps] eqn:P.
    + simpl. rewrite app_nil_r. reflexivity.
    + exfalso. assert (Hne : p :: ps <> []) by discriminate.
      destruct (Hcons Hne) as [_ Hx]. contradiction.
Qed.

Lemma fold_chunkStep_okResults (maxChars : Z)
      (results : list TranslationResult) :
  forall st,
    fold_left (chunkStep maxChars) (okResults results) st
    = fold_left (chunkStep maxChars) results st.
Proof.
  induction results as [|r results IH]; intros st; [reflexivity|].
  unfold okResults. simpl. destruct (isOK (status r)) eqn:Ok.
  - simpl. apply IH.
  - rewrite chunkStep_skip by exact Ok. apply IH.
Qed.

(** X3: results that are not OK never influence the chunks: removing
    them from the input gives the same chunks. *)
Theorem createChunks_ignores_failed :
  forall (results : list TranslationResult) (maxChars : Z),
    createChunks results maxChars
    = createChunks (okResults results) maxChars.
Proof.
  intros results maxChars. unfold createChunks.
  rewrite fold_chunkStep_okResults. reflexivity.
Qed.

Lemma createChunks_all_nearLimit (results : list TranslationResult)
      (maxChars : Z) :
  Forall (nearLimit maxChars) (createChunks results maxChars).
Proof.
  assert (H0 : chunkerBounded maxChars chunkerInit).
  { repeat split; [constructor | intros H; simpl in H; lia]. }
  destruct (chunker_fold_bounded results H0) as (Hc & Hcur & _).
  unfold createChunks, chunkerFinish.
  destruct (truthy _); [|exact Hc].
  apply Forall_app. split; [exact Hc|]. constructor; [exact Hcur|constructor].
Qed.

Lemma pagesText_cons_length (x : TranslationResult)
      (seg : list TranslationResult) :
  List.length (pagesText (x :: seg))
  = List.length (translation x) + 2 + List.length (pagesText seg).
Proof.
  unfold pagesText. cbn [flat_map]. rewrite !length_app.
  cbn [nl List.length]. lia.
Qed.

Lemma pagesText_length_ge (seg : list TranslationResult)
      (r : TranslationResult) :
  In r seg ->
  List.length (translation r) + 2 * List.length seg
  <= List.length (pagesText seg).
Proof.
  assert (G : forall l, 2 * List.length l <= List.length (pagesText l)).
  { induction l as [|y l IH]; [simpl; lia|].
    rewrite pagesText_cons_length. cbn [List.length]. lia. }
  induction seg as [|x seg IH]; intros Hin; [destruct Hin|].
  rewrite pagesText_cons_length. cbn [List.length].
  destruct Hin as [-> | Hin].
  - specialize (G seg). lia.
  - specialize (IH Hin). lia.
Qed.

(** X4: a page whose translation alone is longer than the threshold is
    never joined with another page: the chunk that holds it holds
    nothing else. *)
Theorem createChunks_oversized_alone :
  forall (results : list TranslationResult) (maxChars : Z),
  exists segs,
    concat segs = okResults results
    /\ Forall2 (fun c seg =>
                  chunkOf c seg
                  /\ forall r,
                       In r seg ->
                       (Z.of_nat (List.length (translation r)) > maxChars)%Z ->
                       seg = [r])
               (createChunks results maxChars) segs.
Proof.
  intros results maxChars.
  destruct (createChunks_segments results maxChars) as (segs & Hc & Hf).
  exists segs. split; [exact Hc|]. clear Hc.
  pose proof (createChunks_all_nearLimit results maxChars) as Hb.
  induction Hf as [|c seg cs segs' Hcs Hf IH]; [constructor|].
  inversion Hb as [|? ? Hn Hb']; subst.
  constructor; [|apply IH; exact Hb'].
  split; [exact Hcs|]. intros r Hin Hbig.
  destruct Hcs as (Hne & Hp & Ht).
  destruct seg as [|x [|y seg]]; [destruct Hin | |].
  - destruct Hin as [-> | []]. reflexivity.
  - exfalso.
    assert (L2 : 2 <= List.length (pages c))
      by (rewrite Hp; simpl; lia).
    specialize (Hn L2). rewrite Ht in Hn.
    pose proof (pagesText_length_ge _ _ Hin) as Hl.
    cbn [List.length] in Hl. lia.
Qed.

(* ================================================================== *)
(** ** The document assembler: what the text is made of *)
(* ================================================================== *)

Lemma fold_assembleStep_okResults (results : list TranslationResult) :
  forall st,
    fold_left assembleStep (okResults results) st
    = fold_left assembleStep results st.
Proof.
  induction results as [|r results IH]; intros st; [reflexivity|].
  unfold okResults. simpl. destruct (isOK (status r)) eqn:Ok.
  - simpl. apply IH.
  - rewrite (@assembleStep_skip st r Ok). apply IH.
Qed.

(** X5: results that are not OK leave no trace in the assembled
    document: removing them from the input gives the same text and the
    same tracked chapter and section. *)
Theorem assemble_ignores_failed :
  forall results : list TranslationResult,
    assemble results = assemble (okResults results).
Proof.
  intros results. unfold assemble.
  rewrite fold_assembleStep_okResults. reflexivity.
Qed.

Lemma addChapterHeading_text (st : AssemblerState) (r : TranslationResult) :
  exists c,
    (c = []
     \/ (orEmpty (chapterTitle r) <> []
         /\ c = chapterHeading (orEmpty (chapterTitle r))))
    /\ translationText (addChapterHeading r st) = translationText st ++ c.
Proof.
  unfold addChapterHeading.
  destruct (truthy (orEmpty (chapterTitle r))) eqn:T; cbn [andb].
  - destruct (negb _).
    + eexists. split; [right; split; [|reflexivity]|reflexivity].
      apply truthy_true_iff. exact T.
    + exists []. rewrite app_nil_r. auto.
  - exists []. rewrite app_nil_r. auto.
Qed.

Lemma addSectionHeading_own (st : AssemblerState) (r : TranslationResult) :
  exists s,
    (s = []
     \/ (orEmpty (sectionTitle r) <> []
         /\ s = sectionHeading (orEmpty (sectionTitle r))))
    /\ translationText (addSectionHeading r st) = translationText st ++ s.
Proof.
  unfold addSectionHeading.
  destruct (truthy (orEmpty (sectionTitle r))) eqn:T; cbn [andb].
  - destruct (negb _).
    + eexists. split; [right; split; [|reflexivity]|reflexivity].
      apply truthy_true_iff. exact T.
    + exists []. rewrite app_nil_r. auto.
  - exists []. rewrite app_nil_r. auto.
Qed.

Lemma assemble_fold_pages (oks : list TranslationResult) :
  Forall (fun r => isOK (status r) = true) oks ->
  forall st,
  exists heads,
    Forall2 headingOf oks heads
    /\ translationText (fold_left assembleStep oks st)
       = translationText st ++ pagesWithHeadings oks heads.
Proof.
  induction 1 as [|r oks Ok _ IH]; intros st.
  - exists []. simpl. rewrite app_nil_r. split; [constructor|reflexivity].
  - simpl. destruct (IH (assembleStep st r)) as (heads & Hf & E).
    destruct (addChapterHeading_text st r) as (c & Hc & Ec).
    destruct (addSectionHeading_own (addChapterHeading r st) r)
      as (s & Hs & Es).
    exists ((c ++ s) :: heads). split.
    + constructor; [|exact Hf]. exists c, s. auto.
    + rewrite E, (@assembleStep_ok st r Ok).
      cbn [addTranslation translationText pagesWithHeadings].
      rewrite Es, Ec, <- !app_assoc. reflexivity.
Qed.

(** X6: the assembled text is made of the translations of the OK pages,
    all of them, once each and in page order, every one followed by a
    blank line and preceded by nothing but the page's own chapter
    heading and section heading, where it has those titles. *)
Theorem assemble_text_pages :
  forall results : list TranslationResult,
  exists heads,
    Forall2 headingOf (okResults results) heads
    /\ translationText (assemble results)
       = pagesWithHeadings (okResults results) heads.
Proof.
  intros results. unfold assemble.
  rewrite <- fold_assembleStep_okResults.
  assert (F : Forall (fun r => isOK (status r) = true) (okResults results)).
  { apply Forall_forall. intros r Hin. apply filter_In in Hin. tauto. }
  destruct (assemble_fold_pages F assemblerInit) as (heads & Hf & E).
  exists heads. split; [exact Hf|]. exact E.
Qed.

(* ================================================================== *)
(** ** [processPage]: every run *)
(* ================================================================== *)

Lemma joinWith_cons (sep b : list Event) (rest : list (list Event)) :
  rest <> [] -> joinWith sep (b :: rest) = b ++ sep ++ joinWith sep rest.
Proof. destruct rest; [congruence | reflexivity]. Qed.

Lemma joinWith_snoc (sep b : list Event) (blocks : list (list Event)) :
  joinWith sep (blocks ++ [b])
  = flat_map (fun x => x ++ sep) blocks ++ b.
Proof.
  induction blocks as [|x blocks IH]; [reflexivity|].
  change ((x :: blocks) ++ [b]) with (x :: (blocks ++ [b])).
  rewrite joinWith_cons by (destruct blocks; discriminate).
  rewrite IH. simpl. rewrite <- !app_assoc. reflexivity.
Qed.

Section RetryFacts.

Variable env : Collaborators.
Variables (imagePath : jsstring) (pageNo : nat).
Variables (previousContext chapterContext : jsstring).

Lemma attempt_retryCount (retries : nat) (w w' : World)
      (r : TranslationResult) :
  attempt env imagePath pageNo previousContext chapterContext retries w
  = (Ret r, w') ->
  retryCount r = Some retries.
Proof.
  unfold attempt, bind, encodeFileToBase64, completionsCreate.
  destruct (readFile env w imagePath) as [e | b]; cbn [ofReply];
    [discriminate|].
  destruct (chatCreate env _ _) as [e | content]; cbn [ofReply];
    [discriminate|].
  destruct (truthy (orEmpty content)); cbn [negb]; [|discriminate].
  destruct (parseResponse env (orEmpty content)) as [parsed|];
    [|discriminate].
  destruct (isValidTranslation _ _ _); cbn [negb]; [|discriminate].
  unfold ret. intros E. injection E as <- _. reflexivity.
Qed.

(** The loop stops at the first attempt that succeeds; the attempts are
    3000 ms apart and their number is bounded by the loop variant. *)
Lemma retryLoop_attempts (maxRetries : nat) :
  forall (remaining retries : nat) (w : World),
    remaining + retries = S maxRetries ->
    exists r w' attempts,
      retryLoop env imagePath pageNo previousContext chapterContext
                maxRetries remaining retries w = (Ret r, w')
      /\ w' = w ++ joinWith [EvDelay 3000] attempts
      /\ Forall (attemptEvents imagePath) attempts
      /\ ((status r = OK
           /\ isValidTranslation (toLowerCase env) (translation r)
                                 (summary r) = true
           /\ 1 <= List.length attempts <= remaining
           /\ retryCount r = Some (retries + List.length attempts - 1))
          \/ (r = exhaustedResult pageNo maxRetries
              /\ List.length attempts = remaining)).
Proof.
  induction remaining as [|remaining IH]; intros retries w Hv.
  - exists (exhaustedResult pageNo maxRetries), w, []. simpl.
    rewrite app_nil_r. repeat split; auto.
  - simpl. unfold tryCatch.
    destruct (attempt_run env imagePath pageNo previousContext
                          chapterContext retries w)
      as ([r | e] & evs & E & A & H).
    + exists r, (w ++ evs), [evs]. rewrite E.
      split; [reflexivity|]. split; [reflexivity|].
      split; [constructor; [exact A|constructor]|]. left.
      destruct (H r eq_refl) as [[_ [[_ V] | F]] Ok]; [|congruence].
      split; [exact Ok|]. split; [exact V|]. split; [simpl; lia|].
      rewrite (attempt_retryCount _ _ E). simpl. f_equal. lia.
    + rewrite E. unfold bind.
      destruct remaining as [|remaining].
      * replace (retries + 1 <=? maxRetries) with false
          by (symmetry; apply Nat.leb_gt; lia).
        unfold ret. simpl.
        exists (exhaustedResult pageNo maxRetries), (w ++ evs), [evs].
        repeat split; auto.
      * replace (retries + 1 <=? maxRetries) with true
          by (symmetry; apply Nat.leb_le; lia).
        unfold delay.
        destruct (IH (retries + 1) ((w ++ evs) ++ [EvDelay 3000]))
          as (r & w' & attempts & E' & W & F & C); [lia|].
        exists r, w', (evs :: attempts). split; [exact E'|].
        assert (Hne : attempts <> []).
        { destruct C as [(_ & _ & L & _) | (_ & L)];
            destruct attempts; simpl in L; try discriminate; lia. }
        split; [rewrite W, (joinWith_cons _ _ Hne), <- !app_assoc;
                reflexivity|].
        split; [constructor; assumption|].
        destruct C as [(Ok & V & L & Rc) | (-> & L)].
        -- left. split; [exact Ok|]. split; [exact V|].
           split; [simpl; lia|]. rewrite Rc. simpl. f_equal. lia.
        -- right. split; [reflexivity|]. simpl. lia.
Qed.

Lemma processPage_trace (maxRetries : nat) (w : World) :
  exists r w' attempts,
    processPage env imagePath pageNo previousContext chapterContext
                maxRetries w = (Ret r, w')
    /\ w' = w ++ joinWith [EvDelay 3000] attempts
    /\ Forall (attemptEvents imagePath) attempts
    /\ 1 <= List.length attempts <= maxRetries + 1
    /\ ((status r = OK
         /\ isValidTranslation (toLowerCase env) (translation r)
                               (summary r) = true
         /\ retryCount r = Some (List.length attempts - 1))
        \/ (r = exhaustedResult pageNo maxRetries
            /\ List.length attempts = maxRetries + 1)).
Proof.
  destruct (@retryLoop_attempts maxRetries (S maxRetries) 0 w)
    as (r & w' & attempts & E & W & F & C); [lia|].
  exists r, w', attempts. unfold processPage, pageBoundary, tryCatch.
  rewrite E. split; [reflexivity|]. split; [exact W|]. split; [exact F|].
  destruct C as [(Ok & V & L & Rc) | (-> & L)].
  - split; [lia|]. left. auto.
  - split; [lia|]. right. split; [reflexivity | lia].
Qed.

(** The loop stops at the first attempt that returns: every attempt
    before it threw, and the result is what that attempt returned, or
    the exhausted-retries result when the last attempt allowed threw
    as well. *)
Lemma retryLoop_first_success (maxRetries : nat) :
  forall (remaining retries : nat) (w : World),
    S remaining + retries = S maxRetries ->
    exists r w' failed last,
      retryLoop env imagePath pageNo previousContext chapterContext
                maxRetries (S remaining) retries w = (Ret r, w')
      /\ w' = afterFailed w failed ++ last
      /\ Forall (attemptEvents imagePath) (failed ++ [last])
      /\ retries + List.length failed <= maxRetries
      /\ (forall k,
             k < List.length failed ->
             exists e,
               attempt env imagePath pageNo previousContext chapterContext
                       (retries + k) (afterFailed w (firstn k failed))
               = (Throw e,
                  afterFailed w (firstn k failed) ++ nth k failed []))
      /\ ((attempt env imagePath pageNo previousContext chapterContext
                   (retries + List.length failed) (afterFailed w failed)
           = (Ret r, afterFailed w failed ++ last)
           /\ status r = OK
           /\ isValidTranslation (toLowerCase env) (translation r)
                                 (summary r) = true
           /\ retryCount r = Some (retries + List.length failed))
          \/ ((exists e,
                  attempt env imagePath pageNo previousContext
                          chapterContext (retries + List.length failed)
                          (afterFailed w failed)
                  = (Throw e, afterFailed w failed ++ last))
              /\ retries + List.length failed = maxRetries
              /\ r = exhaustedResult pageNo maxRetries)).
Proof.
  induction remaining as [|remaining IH]; intros retries w Hv;
    cbn [retryLoop]; unfold tryCatch;
    destruct (attempt_run env imagePath pageNo previousContext
                          chapterContext retries w)
      as ([r | e] & evs & E & A & H).
  - exists r, (w ++ evs), [], evs. rewrite E.
    unfold afterFailed. cbn [flat_map List.length app]. rewrite !app_nil_r.
    rewrite !Nat.add_0_r.
    split; [reflexivity|]. split; [reflexivity|].
    split; [constructor; [exact A|constructor]|]. split; [lia|].
    split; [intros k Hk; lia|]. left.
    destruct (H r eq_refl) as [[_ [[_ V] | F]] Ok]; [|congruence].
    split; [exact E|]. split; [exact Ok|]. split; [exact V|].
    exact (attempt_retryCount _ _ E).
  - rewrite E. unfold bind.
    replace (retries + 1 <=? maxRetries) with false
      by (symmetry; apply Nat.leb_gt; lia).
    unfold ret. cbn [retryLoop].
    exists (exhaustedResult pageNo maxRetries), (w ++ evs), [], evs.
    unfold afterFailed. cbn [flat_map List.length app]. rewrite !app_nil_r.
    rewrite !Nat.add_0_r.
    split; [reflexivity|]. split; [reflexivity|].
    split; [constructor; [exact A|constructor]|]. split; [lia|].
    split; [intros k Hk; lia|]. right.
    split; [exists e; exact E|]. split; [lia | reflexivity].
  - exists r, (w ++ evs), [], evs. rewrite E.
    unfold afterFailed. cbn [flat_map List.length app]. rewrite !app_nil_r.
    rewrite !Nat.add_0_r.
    split; [reflexivity|]. split; [reflexivity|].
    split; [constructor; [exact A|constructor]|]. split; [lia|].
    split; [intros k Hk; lia|]. left.
    destruct (H r eq_refl) as [[_ [[_ V] | F]] Ok]; [|congruence].
    split; [exact E|]. split; [exact Ok|]. split; [exact V|].
    exact (attempt_retryCount _ _ E).
  - rewrite E. unfold bind.
    replace (retries + 1 <=? maxRetries) with true
      by (symmetry; apply Nat.leb_le; lia).
    unfold delay.
    destruct (IH (retries + 1) ((w ++ evs) ++ [EvDelay 3000]))
      as (r & w' & failed & last & E' & W & F & L & Hf & C); [lia|].
    assert (Hs : forall l,
               afterFailed ((w ++ evs) ++ [EvDelay 3000]) l
               = afterFailed w (evs :: l)).
    { intros l. unfold afterFailed. cbn [flat_map].
      rewrite <- !app_assoc. reflexivity. }
    exists r, w', (evs :: failed), last.
    split; [exact E'|]. split; [rewrite W, Hs; reflexivity|].
    split; [constructor; assumption|].
    split; [cbn [List.length]; lia|]. split.
    + intros [|k] Hk.
      * cbn [firstn nth]. unfold afterFailed. cbn [flat_map].
        rewrite app_nil_r, Nat.add_0_r. exists e. exact E.
      * cbn [firstn nth]. cbn [List.length] in Hk.
        destruct (Hf k) as (e' & He'); [lia|].
        rewrite <- Hs. exists e'.
        replace (retries + S k) with (retries + 1 + k) by lia. exact He'.
    + rewrite <- Hs. cbn [List.length].
      replace (retries + S (List.length failed))
        with (retries + 1 + List.length failed) by lia.
      exact C.
Qed.

Lemma processPage_first_success (maxRetries : nat) (w : World) :
  exists r w' failed last,
    processPage env imagePath pageNo previousContext chapterContext
                maxRetries w = (Ret r, w')
    /\ w' = w ++ joinWith [EvDelay 3000] (failed ++ [last])
    /\ Forall (attemptEvents imagePath) (failed ++ [last])
    /\ List.length failed <= maxRetries
    /\ (forall k,
           k < List.length failed ->
           exists e,
             attempt env imagePath pageNo previousContext chapterContext
                     k (afterFailed w (firstn k failed))
             = (Throw e,
                afterFailed w (firstn k failed) ++ nth k failed []))
    /\ ((attempt env imagePath pageNo previousContext chapterContext
                 (List.length failed) (afterFailed w failed)
         = (Ret r, afterFailed w failed ++ last)
         /\ status r = OK
         /\ isValidTranslation (toLowerCase env) (translation r)
                               (summary r) = true
         /\ retryCount r = Some (List.length failed))
        \/ ((exists e,
                attempt env imagePath pageNo previousContext chapterContext
                        (List.length failed) (afterFailed w failed)
                = (Throw e, afterFailed w failed ++ last))
            /\ List.length failed = maxRetries
            /\ r = exhaustedResult pageNo maxRetries)).
Proof.
  destruct (@retryLoop_first_success maxRetries maxRetries 0 w)
    as (r & w' & failed & last & E & W & F & L & Hf & C); [lia|].
  exists r, w', failed, last. unfold processPage, pageBoundary, tryCatch.
  rewrite E. split; [reflexivity|].
  split; [rewrite W, joinWith_snoc; unfold afterFailed;
          rewrite <- app_assoc; reflexivity|].
  split; [exact F|]. split; [exact L|]. split; [exact Hf | exact C].
Qed.

End RetryFacts.

(** X7: every call of [processPage] makes between 1 and [maxRetries + 1]
    attempts, each a file read followed by at most one request, with a
    delay of 3000 ms between two attempts and nothing else.  Every
    attempt but the last threw.  Either the last attempt returned, and
    what [processPage] returns is the result of that attempt, OK with
    [retryCount] the number of attempts that failed before it; or the
    last attempt threw as well, it was attempt number [maxRetries + 1],
    and [processPage] returns the exhausted-retries result. *)
Theorem processPage_attempts :
  forall (env : Collaborators) (imagePath : jsstring) (pageNo : nat)
         (previousContext chapterContext : jsstring)
         (maxRetries : nat) (w : World),
  exists r w' failed last,
    processPage env imagePath pageNo previousContext chapterContext
                maxRetries w = (Ret r, w')
    /\ w' = w ++ joinWith [EvDelay 3000] (failed ++ [last])
    /\ Forall (attemptEvents imagePath) (failed ++ [last])
    /\ List.length failed <= maxRetries
    /\ (forall k,
           k < List.length failed ->
           exists e,
             attempt env imagePath pageNo previousContext chapterContext
                     k (afterFailed w (firstn k failed))
             = (Throw e,
                afterFailed w (firstn k failed) ++ nth k failed []))
    /\ ((attempt env imagePath pageNo previousContext chapterContext
                 (List.length failed) (afterFailed w failed)
         = (Ret r, afterFailed w failed ++ last)
         /\ status r = OK
         /\ isValidTranslation (toLowerCase env) (translation r)
                               (summary r) = true
         /\ retryCount r = Some (List.length failed))
        \/ ((exists e,
                attempt env imagePath pageNo previousContext chapterContext
                        (List.length failed) (afterFailed w failed)
                = (Throw e, afterFailed w failed ++ last))
            /\ List.length failed = maxRetries
            /\ r = exhaustedResult pageNo maxRetries)).
Proof. intros. apply processPage_first_success. Qed.

(** A first request that is rejected and a second that is answered well:
    two attempts, 3000 ms apart, and the answer of the second is
    returned with [retryCount] 1. *)
Example processPage_second_attempt_run :
  exists r prompt,
    processPage demoSecond (js "temp_pages/page_1.png") 1 [] [] 3 []
    = (Ret r,
       [ EvReadFile (js "temp_pages/page_1.png") (inr (js "iVBORw0KGgo="));
         EvCreate prompt (inl (MkError (js "429 rate limit")));
         EvDelay 3000;
         EvReadFile (js "temp_pages/page_1.png") (inr (js "iVBORw0KGgo="));
         EvCreate prompt (inr (Some (js "{ }"))) ])
    /\ status r = OK
    /\ translation r = r_translation goodAnswer
    /\ retryCount r = Some 1.
Proof. eexists _, _. repeat split; vm_compute; reflexivity. Qed.

(** X8: when the file is read and the first answer has content, parses
    and passes validation, [processPage] returns at once: one read, one
    request, no delay; the result is OK with [retryCount] 0, it carries
    the page number and the translation, summary and article title of
    the answer, and a chapter or section title missing from the answer
    becomes the empty string. *)
Theorem processPage_first_attempt :
  forall (env : Collaborators) (imagePath : jsstring) (pageNo : nat)
         (previousContext chapterContext : jsstring)
         (maxRetries : nat) (w : World)
         (base64File content : jsstring) (parsed : ParsedResponse),
    readFile env w imagePath = inr base64File ->
    chatCreate env (w ++ [EvReadFile imagePath (inr base64File)])
               (PagePrompt pageNo chapterContext previousContext
                           imagePath base64File)
    = inr (Some content) ->
    content <> [] ->
    parseResponse env content = Some parsed ->
    isValidTranslation (toLowerCase env) (r_translation parsed)
                       (r_summary parsed) = true ->
    processPage env imagePath pageNo previousContext chapterContext
                maxRetries w
    = (Ret {| pageNumber := pageNo;
              translation := r_translation parsed;
              summary := r_summary parsed;
              articleTitle := r_articleTitle parsed;
              chapterTitle := Some (orEmpty (r_chapterTitle parsed));
              sectionTitle := Some (orEmpty (r_sectionTitle parsed));
              status := OK;
              retryCount := Some 0 |},
       w ++ [EvReadFile imagePath (inr base64File);
             EvCreate (PagePrompt pageNo chapterContext previousContext
                                  imagePath base64File)
                      (inr (Some content))]).
Proof.
  intros env imagePath pageNo pc cc maxRetries w b content parsed
         R C Hne P V.
  unfold processPage, pageBoundary. cbn [retryLoop].
  unfold tryCatch, attempt, bind, encodeFileToBase64, completionsCreate.
  rewrite R. cbn [ofReply]. rewrite C. cbn [ofReply orEmpty].
  apply truthy_true_iff in Hne. rewrite Hne. cbn [negb].
  rewrite P, V. cbn [negb]. unfold ret. rewrite <- app_assoc. reflexivity.
Qed.

(** X8 at a model that answers with a good page. *)
Lemma processPage_first_attempt_witness :
  exists r w',
    processPage demoGood (js "temp_pages/page_1.png") 1 [] [] 3 []
    = (Ret r, w')
    /\ status r = OK
    /\ retryCount r = Some 0
    /\ chapterTitle r = Some (js "פרק 1")
    /\ sectionTitle r = Some []
    /\ List.length w' = 2.
Proof.
  eexists _, _. split.
  - apply (@processPage_first_attempt demoGood (js "temp_pages/page_1.png")
             1 [] [] 3 [] (js "iVBORw0KGgo=") (js "{ }") goodAnswer);
      try reflexivity.
    intro E. vm_compute in E. discriminate E.
  - repeat split.
Defined.

(* ================================================================== *)
(** ** The loops of [main]: pacing, requests and counts *)
(* ================================================================== *)

Lemma skipn_cons_nth {A : Type} (l rest : list A) (a : nat) (x d : A) :
  skipn a l = x :: rest ->
  nth a l d = x
  /\ skipn (S a) l = rest
  /\ List.length l = a + S (List.length rest).
Proof.
  revert l. induction a as [|a IH]; intros [|y l] E; simpl in E;
    try discriminate.
  - injection E as -> ->. simpl. auto.
  - destruct (IH l E) as (H1 & H2 & H3). simpl. rewrite H3. auto.
Qed.

Lemma statuses_count (new : list TranslationResult) :
  Forall (fun r => status r = OK \/ status r = FAILED) new ->
  List.length (filter (fun r => isOK (status r)) new)
  + List.length (filter (fun r => isFAILED (status r)) new)
  = List.length new.
Proof.
  induction 1 as [|r new [E | E] _ IH]; [reflexivity| |];
    simpl; rewrite E; simpl; lia.
Qed.

Section LoopTraces.

Variable env : Collaborators.
Variable imagePaths : list jsstring.

(** One iteration of the page loop: the events of one call of
    [processPage], then the delay of 1000 ms unless the page is the
    last. *)
Lemma translatePage_block (i : nat) (s : MainState) :
  exists r blk,
    pageBlock (nth i imagePaths []) blk
    /\ pageNumber r = i + 1
    /\ (status r = OK \/ status r = FAILED)
    /\ translatePage env imagePaths i s
       = (Ret tt,
          {| results := results s ++ [r];
             chunkSummaries := chunkSummaries s;
             world := world s ++ blk
                        ++ (if i <? List.length imagePaths - 1
                            then [EvDelay 1000] else []) |}).
Proof.
  destruct (translatePage_run env imagePaths i s)
    as (pc & cc & r & w' & _ & P & (Pn & _) & R).
  destruct (processPage_trace env (nth i imagePaths []) (i + 1) pc cc 3
                              (world s))
    as (r2 & w2 & attempts & P2 & W & F & L & C).
  rewrite P in P2. injection P2 as <- <-.
  exists r, (joinWith [EvDelay 3000] attempts). split; [|split; [|split]].
  - exists attempts. split; [simpl in L; lia|]. auto.
  - exact Pn.
  - destruct C as [(Ok & _) | (-> & _)]; auto.
  - rewrite R, W. f_equal. f_equal.
    destruct (i <? List.length imagePaths - 1).
    + rewrite <- app_assoc. reflexivity.
    + rewrite app_nil_r. reflexivity.
Qed.

Lemma pageLoop_from (rest : list jsstring) :
  forall (a : nat) (s : MainState),
    skipn a imagePaths = rest ->
    exists s' blocks new,
      forEach (seq a (List.length rest)) (translatePage env imagePaths) s
      = (Ret tt, s')
      /\ Forall2 pageBlock rest blocks
      /\ world s' = world s ++ joinWith [EvDelay 1000] blocks
      /\ results s' = results s ++ new
      /\ map pageNumber new = seq (S a) (List.length rest)
      /\ Forall (fun r => status r = OK \/ status r = FAILED) new.
Proof.
  induction rest as [|p rest IH]; intros a s Hs.
  - exists s, [], []. simpl. rewrite !app_nil_r.
    repeat split; constructor.
  - destruct (@skipn_cons_nth jsstring _ _ a _ [] Hs) as (Hn & Hs' & Hl).
    destruct (translatePage_block a s) as (r & blk & B & Pn & St & R).
    assert (B' : pageBlock p blk) by (destruct Hn; exact B).
    clear B. rename B' into B.
    cbn [List.length seq forEach]. unfold bind. rewrite R.
    match goal with
    | |- context [forEach _ _ ?s1] =>
      destruct (IH (S a) s1 Hs')
        as (s' & blocks & new & E & F & W & Rs & Ln & Sn)
    end.
    exists s', (blk :: blocks), (r :: new). split; [exact E|].
    split; [constructor; assumption|].
    cbn [world results] in W, Rs. split; [|split; [|split]].
    + rewrite W. destruct rest as [|q rest].
      * inversion F; subst.
        replace (a <? List.length imagePaths - 1) with false
          by (symmetry; apply Nat.ltb_ge; simpl in Hl; lia).
        simpl. rewrite !app_nil_r. reflexivity.
      * assert (Hne : blocks <> []) by (inversion F; discriminate).
        replace (a <? List.length imagePaths - 1) with true
          by (symmetry; apply Nat.ltb_lt; simpl in Hl; lia).
        rewrite (joinWith_cons _ _ Hne), <- !app_assoc. reflexivity.
    + rewrite Rs, <- app_assoc. reflexivity.
    + cbn [map List.length seq]. rewrite Pn, Ln. f_equal. lia.
    + constructor; assumption.
Qed.

End LoopTraces.

(** X9: when the contexts of every page are computed, that is, when no
    scan for the chapter context throws, the page loop paces its calls:
    the new history is the events of N calls of [processPage], one for
    each image in order, with exactly one delay of 1000 ms between two
    successive pages and none after the last; every call makes at most
    four attempts, so no such run sends more than four requests for a
    page. *)
Theorem translatePages_pacing :
  forall (env : Collaborators) (imagePaths : list jsstring) (w : World),
    contextsComputed env imagePaths w ->
    exists s blocks,
      translatePages env imagePaths (mainInit w) = (Ret tt, s)
      /\ Forall2 pageBlock imagePaths blocks
      /\ world s = w ++ joinWith [EvDelay 1000] blocks.
Proof.
  intros env imagePaths w _.
  destruct (pageLoop_from env imagePaths (rest := imagePaths) 0
                          (mainInit w) eq_refl)
    as (s & blocks & new & E & F & W & _).
  exists s, blocks. split; [exact E|]. split; [exact F | exact W].
Qed.

(** X9 at two pages and a model that answers well. *)
Lemma translatePages_pacing_witness :
  contextsComputed demoGood demoPaths []
  /\ exists s blocks,
       translatePages demoGood demoPaths (mainInit []) = (Ret tt, s)
       /\ Forall2 pageBlock demoPaths blocks
       /\ world s = [] ++ joinWith [EvDelay 1000] blocks.
Proof.
  assert (H : contextsComputed demoGood demoPaths []).
  { intros [|[|i]] Hi.
    - eexists _, _. vm_compute. reflexivity.
    - eexists _, _. vm_compute. reflexivity.
    - simpl in Hi. lia. }
  split; [exact H|].
  exact (@translatePages_pacing demoGood demoPaths [] H).
Defined.

(** X10: the figures of the final report add up: the number of results
    with status OK plus the number with status FAILED is the number of
    page images. *)
Theorem translatePages_counts :
  forall (env : Collaborators) (imagePaths : list jsstring) (w : World),
  exists s,
    translatePages env imagePaths (mainInit w) = (Ret tt, s)
    /\ List.length (filter (fun r => isOK (status r)) (results s))
       + List.length (filter (fun r => isFAILED (status r)) (results s))
       = List.length imagePaths.
Proof.
  intros env imagePaths w.
  destruct (pageLoop_from env imagePaths (rest := imagePaths) 0
                          (mainInit w) eq_refl)
    as (s & blocks & new & E & _ & _ & Rs & Ln & Sn).
  exists s. split; [exact E|].
  cbn [mainInit results] in Rs. simpl in Rs. rewrite Rs.
  rewrite (statuses_count Sn), <- (length_map pageNumber new), Ln.
  apply length_seq.
Qed.

Section SummaryTraces.

Variable env : Collaborators.
Variable chunks : list ChunkData.

Lemma summarizeChunk_exact (chunk : ChunkData) (i n : nat) (w : World) :
  summarizeChunk env chunk i n w
  = (Ret (summaryOf chunk (chatCreate env w (ChunkPrompt i n chunk))),
     w ++ [EvCreate (ChunkPrompt i n chunk)
                    (chatCreate env w (ChunkPrompt i n chunk))]).
Proof.
  unfold summarizeChunk, tryCatch, bind, completionsCreate.
  destruct (chatCreate env w (ChunkPrompt i n chunk)) as [e | [c|]];
    reflexivity.
Qed.

Lemma summaryLoop_from (rest : list ChunkData) :
  forall (a : nat) (s : MainState),
    skipn a chunks = rest ->
    exists replies,
      List.length replies = List.length rest
      /\ forEach (seq a (List.length rest)) (summarizeAt env chunks) s
         = (Ret tt,
            {| results := results s;
               chunkSummaries := chunkSummaries s ++ summariesOf rest replies;
               world := world s
                          ++ joinWith [EvDelay 1000]
                               (requestBlocks a (List.length chunks)
                                              rest replies) |}).
Proof.
  induction rest as [|c rest IH]; intros a s Hs.
  - exists []. simpl. rewrite !app_nil_r. destruct s; auto.
  - destruct (skipn_cons_nth _ a emptyChunk Hs) as (Hn & Hs' & Hl).
    cbn [List.length seq forEach]. unfold bind at 1.
    unfold summarizeAt at 1. unfold bind at 1. unfold liftWorld at 1.
    rewrite summarizeChunk_exact, Hn. unfold bind at 1.
    unfold pushSummary at 1. cbn [results chunkSummaries world].
    set (reply := chatCreate env (world s)
                             (ChunkPrompt a (List.length chunks) c)).
    destruct rest as [|c' rest].
    + replace (a <? List.length chunks - 1) with false
        by (symmetry; apply Nat.ltb_ge; simpl in Hl; lia).
      exists [reply]. split; reflexivity.
    + replace (a <? List.length chunks - 1) with true
        by (symmetry; apply Nat.ltb_lt; simpl in Hl; lia).
      unfold liftWorld, delay. cbn [results chunkSummaries world].
      match goal with
      | |- context [forEach _ _ ?s1] =>
        destruct (IH (S a) s1 Hs') as (replies & Lr & E)
      end.
      exists (reply :: replies). split; [simpl; simpl in Lr; lia|].
      rewrite E. cbn [results chunkSummaries world].
      assert (Hne : requestBlocks (S a) (List.length chunks) (c' :: rest)
                                  replies <> []).
      { destruct replies; [discriminate Lr | discriminate]. }
      cbn [summariesOf requestBlocks].
      rewrite (joinWith_cons _ _ Hne), <- !app_assoc. reflexivity.
Qed.

End SummaryTraces.

(** X11: the summary loop sends exactly one request for each chunk, in
    chunk order, with one delay of 1000 ms between two successive
    chunks and none after the last, leaves the page results alone, and
    appends one summary per chunk: the answer with surrounding white
    space trimmed, the empty string when the answer has no content, the
    Hebrew error line with the chunk title when the request throws. *)
Theorem summarizeChunks_trace :
  forall (env : Collaborators) (chunks : list ChunkData) (s0 : MainState),
  exists replies,
    List.length replies = List.length chunks
    /\ summarizeChunks env chunks s0
       = (Ret tt,
          {| results := results s0;
             chunkSummaries := chunkSummaries s0
                                 ++ summariesOf chunks replies;
             world := world s0
                        ++ joinWith [EvDelay 1000]
                             (requestBlocks 0 (List.length chunks)
                                            chunks replies) |}).
Proof.
  intros env chunks s0.
  exact (summaryLoop_from env chunks (rest := chunks) 0 s0 eq_refl).
Qed.

(* ================================================================== *)
(** ** Chapter context: what the scan does find *)
(* ================================================================== *)

Lemma chapterScan_skip_untitled (results : list TranslationResult)
      (j : nat) (context : jsstring) :
  forall n,
    j <= n -> n <= List.length results ->
    (forall k rk, j <= k < n -> nth_error results k = Some rk ->
                  untitled rk) ->
    chapterScan results n context = chapterScan results j context.
Proof.
  induction n as [|n IH]; intros Hj Hn Hu.
  - replace j with 0 by lia. reflexivity.
  - destruct (Nat.eq_dec j (S n)) as [-> | Hne]; [reflexivity|].
    cbn [chapterScan].
    destruct (nth_error results n) as [rn|] eqn:E.
    2:{ apply nth_error_None in E. lia. }
    destruct (Hu n rn ltac:(lia) E) as [-> ->]. cbn [truthy andb].
    apply IH; [lia | lia |].
    intros k rk Hk. apply Hu. lia.
Qed.

(** X12: when the preceding page is OK and the nearest earlier page that
    has any title has a chapter title, the chapter context passed for
    the page is that chapter title, followed by " > " and the section
    title of the same page when it has one. *)
Theorem chapterContext_nearest_chapter :
  forall (results : list TranslationResult) (i j : nat)
         (prev rj : TranslationResult),
    j < i ->
    nth_error results (i - 1) = Some prev ->
    isOK (status prev) = true ->
    nth_error results j = Some rj ->
    orEmpty (chapterTitle rj) <> [] ->
    (forall k rk, j < k < i -> nth_error results k = Some rk ->
                  untitled rk) ->
    pageContexts results i
    = inr (sliceLast 200 (translation prev),
           if truthy (orEmpty (sectionTitle rj))
           then orEmpty (chapterTitle rj) ++ js " > "
                  ++ orEmpty (sectionTitle rj)
           else orEmpty (chapterTitle rj)).
Proof.
  intros results i j prev rj Hj Hp Ok Hr Hc Hu.
  assert (Hi : i <= List.length results).
  { assert (i - 1 < List.length results)
      by (apply nth_error_Some; congruence). lia. }
  unfold pageContexts.
  replace (0 <? i) with true by (symmetry; apply Nat.ltb_lt; lia).
  rewrite Hp, Ok.
  rewrite (@chapterScan_skip_untitled results (S j) [] i)
    by (try lia; intros k rk Hk; apply Hu; lia).
  cbn [chapterScan]. rewrite Hr.
  apply truthy_true_iff in Hc. rewrite Hc. reflexivity.
Qed.

(** X12 at chapter "A" with section "S" on page 1 and an untitled
    page 2. *)
Lemma chapterContext_nearest_chapter_witness :
  pageContexts [ okPage 1 (js "body of page one") (js "A") (js "S");
                 okPage 2 (js "body of page two") [] [] ] 2
  = inr (js "body of page two", js "A > S").
Proof.
  apply (@chapterContext_nearest_chapter
           [ okPage 1 (js "body of page one") (js "A") (js "S");
             okPage 2 (js "body of page two") [] [] ] 2 0
           (okPage 2 (js "body of page two") [] [])
           (okPage 1 (js "body of page one") (js "A") (js "S")));
    try reflexivity.
  - lia.
  - intro E. vm_compute in E. discriminate E.
  - intros k rk Hk. assert (k = 1) as -> by lia.
    intros E. injection E as <-. split; reflexivity.
Defined.

(** X13: both contexts are empty for the first page and after a page
    that is not OK, whatever the earlier pages hold: no scan is made
    then; and the chapter context is empty when no earlier page has a
    chapter or section title. *)
Theorem pageContexts_empty_cases :
  (forall results, pageContexts results 0 = inr ([], []))
  /\ (forall results i prev,
         nth_error results (i - 1) = Some prev ->
         isOK (status prev) = false ->
         pageContexts results i = inr ([], []))
  /\ (forall results i,
         (forall k rk, k < i -> nth_error results k = Some rk ->
                       untitled rk) ->
         exists previousContext,
           pageContexts results i = inr (previousContext, [])).
Proof.
  split; [|split].
  - reflexivity.
  - intros results i prev Hp Nok. unfold pageContexts.
    destruct (0 <? i); [|reflexivity]. rewrite Hp, Nok. reflexivity.
  - intros results i Hu. unfold pageContexts.
    destruct (0 <? i) eqn:Pos; [|eauto].
    destruct (nth_error results (i - 1)) as [prev|] eqn:E; [|eauto].
    destruct (isOK (status prev)); [|eauto].
    assert (Hi : i <= List.length results).
    { apply Nat.ltb_lt in Pos.
      assert (i - 1 < List.length results)
        by (apply nth_error_Some; congruence). lia. }
    rewrite (@chapterScan_skip_untitled results 0 [] i)
      by (try lia; intros k rk Hk; apply Hu; lia).
    simpl. eauto.
Qed.

(** X13 after a failed page 2: no context, although page 1 has a
    chapter. *)
Lemma pageContexts_empty_cases_witness :
  pageContexts [ okPage 1 (js "body of page one") (js "A") [];
                 failedPage 2 ] 2
  = inr ([], []).
Proof.
  apply (proj1 (proj2 pageContexts_empty_cases)
           [ okPage 1 (js "body of page one") (js "A") []; failedPage 2 ]
           2 (failedPage 2)); reflexivity.
Defined.

(* ================================================================== *)
(** ** envLoader *)
(* ================================================================== *)

Lemma filter_nil_iff {A : Type} (f : A -> bool) (l : list A) :
  filter f l = [] <-> (forall x, In x l -> f x = false).
Proof.
  induction l as [|a l IH]; simpl.
  - split; [intros _ x []| reflexivity].
  - destruct (f a) eqn:Fa; split.
    + discriminate.
    + intros H. specialize (H a (or_introl eq_refl)). congruence.
    + intros E x [<- | Hx]; [exact Fa | apply IH; assumption].
    + intros H. apply IH. intros x Hx. apply H. right. exact Hx.
Qed.

Section EnvLoaderFacts.

Variable files : EnvFiles.

(** The loop probes the candidates in order and stops at the first that
    exists, which is the only one handed to dotenv. *)
Lemma findEnvFile_trace (paths : list jsstring) :
  forall s : EnvState,
    findEnvFile files paths s
    = (Ret (Some (MkError (js "No .env.local file found")), None),
       {| processEnv := processEnv s;
          envHistory := envHistory s ++ absent paths |})
    \/ exists missing p rest error env',
        paths = missing ++ p :: rest
        /\ dotenvConfig files
             (envHistory s ++ absent missing ++ [EvExists p true])
             (processEnv s) p = (error, env')
        /\ findEnvFile files paths s
           = (Ret (error, Some p),
              {| processEnv := env';
                 envHistory := envHistory s ++ absent missing
                                 ++ [EvExists p true; EvConfig p error] |}).
Proof.
  induction paths as [|p paths IH]; intros s.
  - left. destruct s as [env h]. cbn [findEnvFile absent map]. unfold ret.
    cbn [processEnv envHistory]. rewrite app_nil_r. reflexivity.
  - destruct (existsSync files (envHistory s) p) eqn:Ex.
    + right.
      destruct (dotenvConfig files (envHistory s ++ [EvExists p true])
                             (processEnv s) p) as [error env'] eqn:D.
      exists [], p, paths, error, env'. split; [reflexivity|].
      split; [exact D|].
      cbn [findEnvFile]. unfold bind, probe, config, ret. rewrite Ex.
      cbn [processEnv envHistory]. rewrite D. cbn [absent map app].
      rewrite <- app_assoc. reflexivity.
    + destruct (IH {| processEnv := processEnv s;
                      envHistory := envHistory s ++ [EvExists p false] |})
        as [E | (missing & q & rest & error & env' & P & D & E)].
      * left. cbn [findEnvFile]. unfold bind at 1. unfold probe.
        rewrite Ex, E. cbn [processEnv envHistory absent map].
        rewrite <- app_assoc. reflexivity.
      * right. exists (p :: missing), q, rest, error, env'.
        cbn [processEnv envHistory] in D, E.
        rewrite <- app_assoc in D, E.
        split; [rewrite P; reflexivity|]. split; [exact D|].
        cbn [findEnvFile]. unfold bind at 1. unfold probe.
        rewrite Ex, E. reflexivity.
Qed.

Lemma validateEnv_ret (found : option Error * option jsstring)
      (s s' : EnvState) :
  validateEnv found s = (Ret tt, s') <->
  s' = s /\ fst found = None
  /\ (exists p, snd found = Some p /\ p <> [])
  /\ (forall key, In key requiredVars -> isUnset (processEnv s) key = false).
Proof.
  unfold validateEnv. destruct found as [[e|] [p|]]; cbn [fst snd orb negb].
  - unfold throw. split; [discriminate | intros (_ & H & _); discriminate].
  - unfold throw. split; [discriminate | intros (_ & H & _); discriminate].
  - destruct p as [|c p]; cbn [truthy negb].
    + unfold throw. split; [discriminate|].
      intros (_ & _ & (q & Q & Hq) & _). congruence.
    + unfold bind, getProcessEnv.
      destruct (filter (isUnset (processEnv s)) requiredVars)
        as [|m ms] eqn:F; cbn [List.length Nat.ltb Nat.leb].
      * unfold ret. split.
        -- intros E. injection E as <-. split; [reflexivity|].
           split; [reflexivity|]. split; [exists (c :: p); split;
                                          [reflexivity | discriminate]|].
           apply filter_nil_iff, F.
        -- intros (-> & _). reflexivity.
      * unfold throw. split; [discriminate|].
        intros (_ & _ & _ & H). apply filter_nil_iff in H. congruence.
  - unfold throw. split; [discriminate|].
    intros (_ & _ & (q & Q & _) & _). discriminate.
Qed.

Lemma loadEnvVariables_ret (a b c : jsstring) (s s' : EnvState) :
  loadEnvVariables files a b c s = (Ret tt, s') ->
  forall key, In key requiredVars -> isUnset (processEnv s') key = false.
Proof.
  unfold loadEnvVariables, bind.
  destruct (findEnvFile files (possiblePaths a b c) s) as [[found|e] s1];
    [|discriminate].
  intros E. apply validateEnv_ret in E. destruct E as (-> & _ & _ & H).
  exact H.
Qed.

End EnvLoaderFacts.

(** X14: [loadEnvVariables] probes the four candidate paths in order
    and stops at the first that exists; only that file is handed to
    dotenv, once.  When none exists it throws and leaves [process.env]
    as it was.  It returns exactly when dotenv reports no error for the
    file and all four required variables are then set and non-empty. *)
Theorem loadEnvVariables_probes :
  forall (files : EnvFiles) (a b c : jsstring) (s : EnvState),
    loadEnvVariables files a b c s
    = (Throw notFound,
       {| processEnv := processEnv s;
          envHistory := envHistory s ++ absent (possiblePaths a b c) |})
    \/ exists missing p rest error out s',
        possiblePaths a b c = missing ++ p :: rest
        /\ loadEnvVariables files a b c s = (out, s')
        /\ envHistory s'
           = envHistory s ++ absent missing
               ++ [EvExists p true; EvConfig p error]
        /\ (out = Ret tt <->
            error = None /\ p <> []
            /\ forall key, In key requiredVars ->
                           isUnset (processEnv s') key = false).
Proof.
  intros files a b c s. unfold loadEnvVariables, bind.
  destruct (findEnvFile_trace files (possiblePaths a b c) s)
    as [E | (missing & p & rest & error & env' & P & D & E)]; rewrite E.
  - left. reflexivity.
  - right.
    match goal with
    | |- context [validateEnv ?f ?s1] =>
      destruct (validateEnv f s1) as [out s'] eqn:V
    end.
    exists missing, p, rest, error, out, s'. split; [exact P|].
    split; [reflexivity|].
    assert (S' : s' = {| processEnv := env';
                         envHistory := envHistory s ++ absent missing
                                         ++ [EvExists p true;
                                             EvConfig p error] |}).
    { revert V. unfold validateEnv, bind, getProcessEnv, throw, ret.
      repeat match goal with
             | |- context [if ?x then _ else _] => destruct x
             end; intros V; injection V as _ <-; reflexivity. }
    split; [rewrite S'; reflexivity|]. split.
    + intros ->. apply validateEnv_ret in V.
      destruct V as (-> & F & (q & Q & Hq) & H). cbn [fst snd] in F, Q.
      injection Q as <-. auto.
    + intros (-> & Hp & H).
      assert (V' : validateEnv (None, Some p)
                     {| processEnv := env';
                        envHistory := envHistory s ++ absent missing
                                        ++ [EvExists p true;
                                            EvConfig p None] |}
                   = (Ret tt, s')).
      { apply validateEnv_ret. split; [exact S'|]. split; [reflexivity|].
        split; [exists p; auto|]. rewrite S' in H. exact H. }
      rewrite V' in V. injection V as <-. reflexivity.
Qed.

(** X15: after [loadEnvVariables] has returned, [getEnvVar] returns a
    non-empty value for each of the four required names, the key read
    by [main] among them, and changes nothing. *)
Theorem loadEnvVariables_then_getEnvVar :
  forall (files : EnvFiles) (a b c : jsstring) (s s' : EnvState),
    loadEnvVariables files a b c s = (Ret tt, s') ->
    forall key, In key requiredVars ->
    exists value,
      value <> []
      /\ processEnv s' key = Some value
      /\ getEnvVar key s' = (Ret value, s').
Proof.
  intros files a b c s s' E key Hk.
  pose proof (@loadEnvVariables_ret files a b c s s' E key Hk) as U.
  unfold isUnset in U. unfold getEnvVar, bind, getProcessEnv.
  destruct (processEnv s' key) as [[|ch v]|]; try discriminate U.
  exists (ch :: v). split; [discriminate|]. split; reflexivity.
Qed.

(** X15 at a project in [/app] whose file sets the four variables. *)
Lemma loadEnvVariables_then_getEnvVar_witness :
  exists s' value,
    loadEnvVariables demoFiles (js "/app/.env.local")
                     (js "/app/.env.local") (js "/app/.env.local")
                     demoEnvState
    = (Ret tt, s')
    /\ value <> []
    /\ getEnvVar (js "OPENAI_API_KEY") s' = (Ret value, s').
Proof.
  assert (E : loadEnvVariables demoFiles (js "/app/.env.local")
                (js "/app/.env.local") (js "/app/.env.local") demoEnvState
              = (Ret tt,
                 {| processEnv := demoVars;
                    envHistory :=
                      [EvExists (js "/app/.env.local") true;
                       EvConfig (js "/app/.env.local") None] |}))
    by (vm_compute; reflexivity).
  destruct (@loadEnvVariables_then_getEnvVar _ _ _ _ _ _ E
              (js "OPENAI_API_KEY") (or_introl eq_refl))
    as (value & Hv & _ & G).
  eexists _, value. split; [exact E|]. split; [exact Hv | exact G].
Defined.

(* ================================================================== *)
(** ** pdfProcessorJS *)
(* ================================================================== *)

Lemma seq_split_inv (done rest : list nat) (k : nat) :
  forall a n,
    seq a n = done ++ k :: rest ->
    done = seq a (List.length done)
    /\ k = a + List.length done
    /\ List.length done < n.
Proof.
  induction done as [|d done IH]; intros a [|n] E; simpl in E;
    try discriminate.
  - injection E as <- _. simpl. repeat split; lia.
  - injection E as <- E. destruct (IH _ _ E) as (H1 & H2 & H3).
    simpl. rewrite <- H1. repeat split; lia.
Qed.

Section PdfFacts.

Variable tools : PdfTools.
Variables pdfPath outputDir : jsstring.

(** The conversion loop stops at the first page that fails. *)
Lemma convertPages_trace (pageNums : list nat) :
  forall (imagePaths : list jsstring) (w : list PdfEvent),
    convertPages tools pdfPath outputDir pageNums imagePaths w
    = (Ret (imagePaths ++ map (pagePath tools outputDir) pageNums),
       w ++ rendered tools pdfPath outputDir pageNums)
    \/ exists done k rest e,
        pageNums = done ++ k :: rest
        /\ convertPages tools pdfPath outputDir pageNums imagePaths w
           = (Throw e,
              w ++ rendered tools pdfPath outputDir done
                ++ [EvRenderPage pdfPath k (pagePath tools outputDir k)
                                 (Some e)]).
Proof.
  induction pageNums as [|k pageNums IH]; intros imagePaths w.
  - left. cbn [convertPages map rendered]. unfold ret.
    rewrite !app_nil_r. reflexivity.
  - destruct (renderPage tools w pdfPath k (pagePath tools outputDir k))
      as [e|] eqn:R.
    + right. exists [], k, pageNums, e. split; [reflexivity|].
      cbn [convertPages].
      unfold convertPageToImage, tryCatch, render, bind, ret, throw.
      unfold pagePath in R. rewrite R. reflexivity.
    + destruct (IH (imagePaths ++ [pagePath tools outputDir k])
                   (w ++ [EvRenderPage pdfPath k (pagePath tools outputDir k)
                                       None]))
        as [E | (done & j & rest & e & P & E)].
      * left. cbn [convertPages]. unfold bind at 1.
        unfold convertPageToImage, tryCatch, render, bind, ret.
        unfold pagePath in R, E. rewrite R, E.
        cbn [map rendered]. rewrite <- !app_assoc. reflexivity.
      * right. exists (k :: done), j, rest, e.
        split; [rewrite P; reflexivity|].
        cbn [convertPages]. unfold bind at 1.
        unfold convertPageToImage, tryCatch, render, bind, ret.
        unfold pagePath in R, E. rewrite R, E.
        cbn [map rendered]. rewrite <- !app_assoc. reflexivity.
Qed.

Lemma splitPdfToImagesJS_cases (w : list PdfEvent) :
  (exists e,
      splitPdfToImagesJS tools pdfPath outputDir w
      = (Throw e, w ++ [EvEnsureDir outputDir (Some e)]))
  \/ (exists e,
         splitPdfToImagesJS tools pdfPath outputDir w
         = (Throw e, w ++ [EvEnsureDir outputDir None;
                           EvLoadPdf pdfPath (inl e)]))
  \/ (exists pageCount k e,
         k < pageCount
         /\ splitPdfToImagesJS tools pdfPath outputDir w
            = (Throw e,
               w ++ [EvEnsureDir outputDir None;
                     EvLoadPdf pdfPath (inr pageCount)]
                 ++ rendered tools pdfPath outputDir (seq 1 k)
                 ++ [EvRenderPage pdfPath (S k)
                                  (pagePath tools outputDir (S k))
                                  (Some e)]))
  \/ (exists pageCount,
         splitPdfToImagesJS tools pdfPath outputDir w
         = (Ret (map (pagePath tools outputDir) (seq 1 pageCount)),
            w ++ [EvEnsureDir outputDir None;
                  EvLoadPdf pdfPath (inr pageCount)]
              ++ rendered tools pdfPath outputDir (seq 1 pageCount))).
Proof.
  unfold splitPdfToImagesJS, tryCatch, bind, ensureOutputDir, numPages.
  destruct (ensureDir tools w outputDir) as [e|].
  { left. exists e. reflexivity. }
  right.
  destruct (loadPdf tools (w ++ [EvEnsureDir outputDir None]) pdfPath)
    as [e | pageCount]; cbn [ofReply].
  { left. exists e. unfold throw. rewrite <- app_assoc. reflexivity. }
  right.
  destruct (convertPages_trace (seq 1 pageCount) []
              ((w ++ [EvEnsureDir outputDir None])
                 ++ [EvLoadPdf pdfPath (inr pageCount)]))
    as [E | (done & k & rest & e & P & E)]; rewrite E.
  - right. exists pageCount. rewrite <- !app_assoc. reflexivity.
  - left. destruct (@seq_split_inv done rest k 1 pageCount P) as (D & K & L).
    exists pageCount, (List.length done), e. split; [exact L|].
    unfold throw. rewrite <- D. subst k. rewrite <- !app_assoc.
    reflexivity.
Qed.

End PdfFacts.

(** X16: [splitPdfToImagesJS] either returns, for a document of n
    pages, the n paths [page_1.png] .. [page_n.png] of the output
    directory in page order, after rendering each page once and in
    order; or it throws the error of the first step that failed, and
    then no later page has been rendered. *)
Theorem splitPdfToImagesJS_pages :
  forall (tools : PdfTools) (pdfPath outputDir : jsstring)
         (w : list PdfEvent),
    (exists e,
        splitPdfToImagesJS tools pdfPath outputDir w
        = (Throw e, w ++ [EvEnsureDir outputDir (Some e)]))
    \/ (exists e,
           splitPdfToImagesJS tools pdfPath outputDir w
           = (Throw e, w ++ [EvEnsureDir outputDir None;
                             EvLoadPdf pdfPath (inl e)]))
    \/ (exists pageCount k e,
           k < pageCount
           /\ splitPdfToImagesJS tools pdfPath outputDir w
              = (Throw e,
                 w ++ [EvEnsureDir outputDir None;
                       EvLoadPdf pdfPath (inr pageCount)]
                   ++ rendered tools pdfPath outputDir (seq 1 k)
                   ++ [EvRenderPage pdfPath (S k)
                                    (pagePath tools outputDir (S k))
                                    (Some e)]))
    \/ (exists pageCount,
           splitPdfToImagesJS tools pdfPath outputDir w
           = (Ret (map (pagePath tools outputDir) (seq 1 pageCount)),
              w ++ [EvEnsureDir outputDir None;
                    EvLoadPdf pdfPath (inr pageCount)]
                ++ rendered tools pdfPath outputDir (seq 1 pageCount))).
Proof.
  intros tools pdfPath outputDir w.
  apply splitPdfToImagesJS_cases.
Qed.

Section PageEvents.

Variable env : Collaborators.

Lemma attempt_events (imagePath : jsstring) (pageNo : nat)
      (previousContext chapterContext : jsstring) (retries : nat)
      (w : World) :
  exists o evs,
    attempt env imagePath pageNo previousContext chapterContext retries w
    = (o, w ++ evs)
    /\ Forall (eventOfPage imagePath pageNo) evs.
Proof.
  unfold attempt, bind, encodeFileToBase64, completionsCreate.
  destruct (readFile env w imagePath) as [e | b]; cbn [ofReply].
  { eexists _, [_]. split; [reflexivity|].
    constructor; [reflexivity | constructor]. }
  set (prompt := PagePrompt pageNo chapterContext previousContext
                            imagePath b).
  assert (F : forall reply,
             Forall (eventOfPage imagePath pageNo)
                    [EvReadFile imagePath (inr b); EvCreate prompt reply]).
  { intros reply. constructor; [reflexivity|].
    constructor; [|constructor]. unfold prompt. cbn. eauto. }
  assert (W : forall reply,
             (w ++ [EvReadFile imagePath (inr b)]) ++ [EvCreate prompt reply]
             = w ++ [EvReadFile imagePath (inr b); EvCreate prompt reply]).
  { intros reply. rewrite <- app_assoc. reflexivity. }
  destruct (chatCreate env _ prompt) as [e | content]; cbn [ofReply].
  { eexists _, _. split; [rewrite W; reflexivity | apply F]. }
  destruct (truthy (orEmpty content)); cbn [negb].
  2:{ eexists _, _. unfold throw. split; [rewrite W; reflexivity | apply F]. }
  destruct (parseResponse env (orEmpty content)) as [parsed|].
  2:{ eexists _, _. unfold throw. split; [rewrite W; reflexivity | apply F]. }
  destruct (isValidTranslation _ _ _); cbn [negb].
  - eexists _, _. unfold ret. split; [rewrite W; reflexivity | apply F].
  - eexists _, _. unfold throw. split; [rewrite W; reflexivity | apply F].
Qed.

Lemma retryLoop_events (imagePath : jsstring) (pageNo : nat)
      (previousContext chapterContext : jsstring) (maxRetries : nat) :
  forall (remaining retries : nat) (w : World),
  exists r evs,
    retryLoop env imagePath pageNo previousContext chapterContext
              maxRetries remaining retries w = (Ret r, w ++ evs)
    /\ Forall (eventOfPage imagePath pageNo) evs.
Proof.
  induction remaining as [|remaining IH]; intros retries w;
    cbn [retryLoop].
  - eexists _, []. unfold ret. rewrite app_nil_r.
    split; [reflexivity | constructor].
  - unfold tryCatch.
    destruct (attempt_events imagePath pageNo previousContext
                             chapterContext retries w)
      as ([r | e] & evs & E & F); rewrite E.
    + exists r, evs. split; [reflexivity | exact F].
    + unfold bind.
      destruct (retries + 1 <=? maxRetries).
      * unfold delay.
        destruct (IH (retries + 1) ((w ++ evs) ++ [EvDelay 3000]))
          as (r & evs' & E' & F').
        exists r, (evs ++ [EvDelay 3000] ++ evs').
        split; [rewrite E', <- !app_assoc; reflexivity|].
        apply Forall_app. split; [exact F|].
        constructor; [exact I | exact F'].
      * unfold ret.
        destruct (IH (retries + 1) (w ++ evs)) as (r & evs' & E' & F').
        exists r, (evs ++ evs').
        split; [rewrite E', <- app_assoc; reflexivity|].
        apply Forall_app. split; assumption.
Qed.

Variable imagePaths : list jsstring.

(** One iteration of the page loop pushes one result and leaves only
    events of its own page. *)
Lemma translatePage_events (i : nat) (s : MainState) :
  exists r evs,
    translatePage env imagePaths i s
    = (Ret tt,
       {| results := results s ++ [r];
          chunkSummaries := chunkSummaries s;
          world := world s ++ evs |})
    /\ Forall (eventOfPage (nth i imagePaths []) (i + 1)) evs.
Proof.
  destruct (translatePage_run env imagePaths i s)
    as (pc & cc & r & w' & _ & P & _ & R).
  destruct (retryLoop_events (nth i imagePaths []) (i + 1) pc cc 3 4 0
                             (world s)) as (r' & evs & E & F).
  unfold processPage, pageBoundary, tryCatch in P. rewrite E in P.
  injection P as <- <-. rewrite R.
  destruct (i <? List.length imagePaths - 1).
  - exists r', (evs ++ [EvDelay 1000]).
    split; [rewrite <- app_assoc; reflexivity|].
    apply Forall_app. split; [exact F|]. constructor; [exact I|constructor].
  - exists r', evs. split; [reflexivity | exact F].
Qed.

Lemma pageLoop_events (w : World) (k : nat) :
  exists evs,
    world (pageLoopState env imagePaths w k) = w ++ evs
    /\ forall ev,
         In ev evs ->
         exists i, i < k /\ eventOfPage (nth i imagePaths []) (i + 1) ev.
Proof.
  induction k as [|k (evs & W & H)].
  - exists []. split; [cbn; rewrite app_nil_r; reflexivity|].
    intros ev [].
  - destruct (translatePage_events k (pageLoopState env imagePaths w k))
      as (r & evs' & E & F).
    rewrite pageLoopState_step in E. injection E as ->.
    exists (evs ++ evs'). cbn [world]. rewrite W, <- app_assoc.
    split; [reflexivity|].
    intros ev Hin. apply in_app_or in Hin. destruct Hin as [Hin | Hin].
    + destruct (H ev Hin) as (i & Hi & Hev). exists i. split; [lia|exact Hev].
    + exists k. split; [lia|]. rewrite Forall_forall in F. apply F, Hin.
Qed.

End PageEvents.

(** X17: when the page loop runs on the images that
    [splitPdfToImagesJS] returned, the k-th result has page number k,
    and everything the loop does to the outside belongs to one of the
    pages 1..N: every file it reads is the file [page_k.png] of the
    output directory for such a k, and every request it sends carries a
    page number k together with the image [page_k.png] of that same
    k. *)
Theorem translatePages_of_split :
  forall (tools : PdfTools) (pdfPath outputDir : jsstring)
         (pw pw' : list PdfEvent) (imagePaths : list jsstring),
    splitPdfToImagesJS tools pdfPath outputDir pw = (Ret imagePaths, pw') ->
    forall (env : Collaborators) (w : World),
    exists s events,
      translatePages env imagePaths (mainInit w) = (Ret tt, s)
      /\ map pageNumber (results s) = seq 1 (List.length imagePaths)
      /\ world s = w ++ events
      /\ forall ev,
           In ev events ->
           exists k,
             1 <= k <= List.length imagePaths
             /\ eventOfPage (pagePath tools outputDir k) k ev.
Proof.
  intros tools pdfPath outputDir pw pw' imagePaths Split env w.
  assert (P : exists n, imagePaths = map (pagePath tools outputDir)
                                         (seq 1 n)).
  { destruct (splitPdfToImagesJS_cases tools pdfPath outputDir pw)
      as [(e & E) | [(e & E) | [(n & k & e & _ & E) | (n & E)]]];
      rewrite E in Split; try discriminate Split.
    injection Split as <- _. exists n. reflexivity. }
  destruct P as (n & P).
  assert (L : List.length imagePaths = n)
    by (rewrite P, length_map, length_seq; reflexivity).
  destruct (pageLoop_prefix env imagePaths w (List.length imagePaths))
    as (E & N & _).
  destruct (pageLoop_events env imagePaths w (List.length imagePaths))
    as (events & W & H).
  exists (pageLoopState env imagePaths w (List.length imagePaths)), events.
  split; [exact E|]. split; [exact N|]. split; [exact W|].
  intros ev Hin. destruct (H ev Hin) as (i & Hi & Hev).
  exists (i + 1). split; [lia|].
  replace (pagePath tools outputDir (i + 1)) with (nth i imagePaths []);
    [exact Hev|].
  rewrite (nth_indep imagePaths [] (pagePath tools outputDir 0)) by exact Hi.
  rewrite P, map_nth, seq_nth by lia. f_equal. lia.
Qed.

(** X17 at a document of two pages and a model that answers well. *)
Lemma translatePages_of_split_witness :
  exists s events,
    translatePages demoGood
                   [ js "temp_pages/page_1.png"; js "temp_pages/page_2.png" ]
                   (mainInit [])
    = (Ret tt, s)
    /\ map pageNumber (results s) = [1; 2]
    /\ world s = events
    /\ forall ev,
         In ev events ->
         exists k,
           1 <= k <= 2
           /\ eventOfPage (pagePath demoTools (js "temp_pages") k) k ev.
Proof.
  assert (E : splitPdfToImagesJS demoTools (js "input.pdf")
                (js "temp_pages") []
              = (Ret [ js "temp_pages/page_1.png";
                       js "temp_pages/page_2.png" ],
                 [ EvEnsureDir (js "temp_pages") None;
                   EvLoadPdf (js "input.pdf") (inr 2);
                   EvRenderPage (js "input.pdf") 1
                                (js "temp_pages/page_1.png") None;
                   EvRenderPage (js "input.pdf") 2
                                (js "temp_pages/page_2.png") None ]))
    by (vm_compute; reflexivity).
  exact (@translatePages_of_split demoTools (js "input.pdf")
           (js "temp_pages") [] _ _ E demoGood []).
Defined.

(* ================================================================== *)
(** ** The summary file *)
(* ================================================================== *)

Lemma skipn_cons_nth_error {A : Type} (l rest : list A) (a : nat) (x : A) :
  skipn a l = x :: rest -> nth_error l a = Some x.
Proof.
  revert l. induction a as [|a IH]; intros [|y l] E; simpl in E;
    try discriminate.
  - injection E as -> _. reflexivity.
  - simpl. apply IH, E.
Qed.

Lemma nth_error_last {A : Type} (l : list A) (d : A) :
  l <> [] -> nth_error l (List.length l - 1) = Some (last l d).
Proof.
  induction l as [|a l IH]; [congruence|]. intros _.
  destruct l as [|b l]; [reflexivity|].
  replace (List.length (a :: b :: l) - 1) with (S (List.length (b :: l) - 1))
    by (simpl; lia).
  cbn [nth_error]. rewrite IH by discriminate. reflexivity.
Qed.

Lemma summarySection_sectionOf (c : ChunkData) (s : jsstring) :
  pages c <> [] -> summarySection c (Some s) = sectionOf c s.
Proof.
  intros H. unfold summarySection, sectionOf, pageAt.
  rewrite (nth_error_last 0 H).
  destruct (pages c) as [|p ps]; [congruence|]. reflexivity.
Qed.

Lemma structuredSummary_from (chunks : list ChunkData)
      (summaries : list jsstring) (rest : list ChunkData) :
  forall (srest : list jsstring) (a : nat) (acc : jsstring),
    skipn a chunks = rest ->
    skipn a summaries = srest ->
    List.length srest = List.length rest ->
    Forall (fun c => pages c <> []) rest ->
    fold_left
      (fun acc i =>
         acc ++ summarySection (nth i chunks emptyChunk)
                               (nth_error summaries i))
      (seq a (List.length rest)) acc
    = acc ++ sectionsOf rest srest.
Proof.
  induction rest as [|c rest IH]; intros srest a acc Hc Hs L F.
  - simpl. rewrite app_nil_r. reflexivity.
  - destruct srest as [|s srest]; [discriminate L|].
    destruct (@skipn_cons_nth ChunkData _ _ a _ emptyChunk Hc)
      as (Hn & Hc' & _).
    pose proof (skipn_cons_nth_error _ _ Hs) as Hn'.
    assert (Hs' : skipn (S a) summaries = srest).
    { destruct (@skipn_cons_nth jsstring _ _ a _ [] Hs) as (_ & H & _).
      exact H. }
    apply Forall_cons_iff in F. destruct F as [Fc Fr].
    cbn [List.length seq fold_left]. rewrite Hn, Hn'.
    rewrite (IH srest (S a) _ Hc' Hs') by (simpl in L; auto; lia).
    rewrite summarySection_sectionOf by exact Fc.
    cbn [sectionsOf]. rewrite <- app_assoc. reflexivity.
Qed.

Lemma summariesOf_length (chunks : list ChunkData) :
  forall replies : list (Error + option jsstring),
    List.length replies = List.length chunks ->
    List.length (summariesOf chunks replies) = List.length chunks.
Proof.
  induction chunks as [|c chunks IH]; intros [|r replies] L;
    simpl in *; try discriminate; auto.
Qed.

Lemma chunkOf_pages (chunks : list ChunkData)
      (segs : list (list TranslationResult)) :
  Forall2 chunkOf chunks segs -> Forall (fun c => pages c <> []) chunks.
Proof.
  induction 1 as [|c seg chunks segs (Hne & Hp & _) _ IH]; constructor;
    [|exact IH].
  rewrite Hp. destruct seg; [congruence | discriminate].
Qed.

(** X18: for the chunks that [createChunks] makes and the summaries
    that the summary loop collects for them, the summary file has one
    section per chunk, in order: the rule, the chunk title, the page
    range from the first to the last page of the chunk, the rule, and
    the summary of that chunk.  Every chunk has a page and a summary, so
    no page number and no summary is ever the text of a missing
    value. *)
Theorem structuredSummary_sections :
  forall (env : Collaborators) (results : list TranslationResult)
         (maxChars : Z) (s0 : MainState),
    chunkSummaries s0 = [] ->
    exists s1,
      summarizeChunks env (createChunks results maxChars) s0 = (Ret tt, s1)
      /\ List.length (chunkSummaries s1)
         = List.length (createChunks results maxChars)
      /\ Forall (fun c => pages c <> []) (createChunks results maxChars)
      /\ structuredSummary (createChunks results maxChars)
                           (chunkSummaries s1)
         = sectionsOf (createChunks results maxChars) (chunkSummaries s1).
Proof.
  intros env results maxChars s0 H0.
  destruct (summaryLoop_from env (createChunks results maxChars)
              (rest := createChunks results maxChars) 0 s0 eq_refl)
    as (replies & L & E).
  destruct (createChunks_segments results maxChars) as (segs & _ & F).
  apply chunkOf_pages in F.
  eexists. split; [exact E|]. cbn [chunkSummaries]. rewrite H0.
  cbn [app].
  pose proof (summariesOf_length _ _ L) as L'.
  split; [exact L'|]. split; [exact F|].
  exact (@structuredSummary_from
           (createChunks results maxChars)
           (summariesOf (createChunks results maxChars) replies)
           (createChunks results maxChars)
           (summariesOf (createChunks results maxChars) replies)
           0 [] eq_refl eq_refl L' F).
Qed.

(** X18 at four pages, one failed, and a model that rejects every
    request. *)
Lemma structuredSummary_sections_witness :
  exists s1,
    summarizeChunks demoFailing (createChunks smallPages defaultMaxChars)
                    (mainInit [])
    = (Ret tt, s1)
    /\ structuredSummary (createChunks smallPages defaultMaxChars)
                         (chunkSummaries s1)
       = sectionsOf (createChunks smallPages defaultMaxChars)
                    (chunkSummaries s1).
Proof.
  destruct (@structuredSummary_sections demoFailing smallPages
              defaultMaxChars (mainInit []) eq_refl)
    as (s1 & E & _ & _ & S).
  exists s1. split; [exact E | exact S].
Defined.

(* ================================================================== *)
(** ** checkEnv *)
(* ================================================================== *)

(** X19: the masked form that [checkEnv] prints of a value: four stars
    for a value of at most 8 characters; for a longer one the first four
    and the last four characters around three dots, which stand for at
    least one character that is left out. *)
Theorem masked_hides :
  forall value : jsstring,
    (List.length value <= 8 /\ masked value = js "****")
    \/ exists first hidden last,
        value = first ++ hidden ++ last
        /\ List.length first = 4
        /\ List.length last = 4
        /\ hidden <> []
        /\ masked value = first ++ js "..." ++ last.
Proof.
  intros value. unfold masked.
  destruct (8 <? List.length value) eqn:L.
  - right. apply Nat.ltb_lt in L.
    exists (firstn 4 value),
           (firstn (List.length value - 8) (skipn 4 value)),
           (skipn (List.length value - 4) value).
    split; [|split; [|split; [|split]]].
    + replace (skipn (List.length value - 4) value)
        with (skipn (List.length value - 8) (skipn 4 value))
        by (rewrite skipn_skipn; f_equal; lia).
      rewrite (firstn_skipn (List.length value - 8) (skipn 4 value)).
      symmetry. apply firstn_skipn.
    + rewrite length_firstn. lia.
    + rewrite length_skipn. lia.
    + intros E. apply (f_equal (@List.length N)) in E.
      rewrite length_firstn, length_skipn in E. simpl in E. lia.
    + unfold substring. cbn [skipn Nat.sub]. f_equal. f_equal.
      apply firstn_all2. rewrite length_skipn. lia.
  - left. apply Nat.ltb_ge in L. split; [exact L | reflexivity].
Qed.

(* ================================================================== *)
(** ** The chunker: the size of every chunk *)
(* ================================================================== *)

(** X20: every chunk that [createChunks] makes either holds a single
    page or has a text of at most [maxChars + 2] characters: the check
    made before a page is added leaves out the two line breaks appended
    after it. *)
Theorem createChunks_size_bound :
  forall (results : list TranslationResult) (maxChars : Z),
    Forall (fun c =>
              List.length (pages c) = 1
              \/ (Z.of_nat (List.length (text c)) <= maxChars + 2)%Z)
           (createChunks results maxChars).
Proof.
  intros results maxChars.
  pose proof (createChunks_all_nearLimit results maxChars) as Hb.
  destruct (createChunks_segments results maxChars) as (segs & _ & Hf).
  apply chunkOf_pages in Hf.
  rewrite Forall_forall in *. intros c Hc.
  specialize (Hb c Hc). specialize (Hf c Hc). unfold nearLimit in Hb.
  destruct (pages c) as [|p [|q ps]]; [congruence | left; reflexivity |].
  right. apply Hb. simpl. lia.
Qed.


(* ================================================================== *)
(** ** The scan on titles of any type *)
(* ================================================================== *)


(** X22: the scan can throw only at a section title that is not a string
    (nor an array): when the context it starts with and every section
    title it passes answer [.includes('>')], it returns a context. *)
Theorem chapterScanJS_returns :
  forall (titles : list (Title * Title)) (j1 : nat)
         (chapterContext : Title),
    j1 <= List.length titles ->
    answersIncludes chapterContext ->
    (forall k prevChapter prevSection,
        k < j1 ->
        nth_error titles k = Some (prevChapter, prevSection) ->
        answersIncludes prevSection) ->
    exists context, chapterScanJS titles j1 chapterContext = inr context.
Proof.
  intros titles. induction j1 as [|j IH]; intros context Hj Hc Hs;
    cbn [chapterScanJS]; [eauto|].
  destruct (nth_error titles j) as [[prevChapter prevSection]|] eqn:E.
  2:{ apply nth_error_None in E. lia. }
  destruct (titleTruthy prevChapter && negb (titleTruthy context)); [eauto|].
  assert (Hs' : forall k c s, k < j -> nth_error titles k = Some (c, s) ->
                              answersIncludes s)
    by (intros k c s Hk; apply Hs; lia).
  destruct (titleTruthy prevSection); [|apply IH; [lia | exact Hc | exact Hs']].
  destruct Hc as (found & Hf). rewrite Hf.
  destruct found; cbn [negb].
  - apply IH; [lia | exists true; exact Hf | exact Hs'].
  - apply IH; [lia | exact (Hs j _ _ ltac:(lia) E) | exact Hs'].
Qed.

(** X22 at two pages with the sections "S" and "T". *)
Lemma chapterScanJS_returns_witness :
  exists context,
    chapterScanJS [ (TString [], TString (js "S"));
                    (TString [], TString (js "T")) ] 2 (TString [])
    = inr context.
Proof.
  apply chapterScanJS_returns.
  - simpl. lia.
  - eexists. reflexivity.
  - intros [|[|k]] c s Hk E; [| |lia]; injection E as _ <-;
      eexists; reflexivity.
Defined.

(** A section title that is a number: the scan for page 3 takes the
    number 5 of page 2 as the context and throws at the section of
    page 1. *)
Example chapterScanJS_number_section :
  chapterScanJS numberSection 2 (TString []) = inl notAFunction.
Proof. vm_compute. reflexivity. Qed.
